(** * Order history plugin: the [HistoryView] of [order_history/views.py]

    A shallow embedding of the request handler [HistoryView.get], of the
    aggregation loop of [generate_build_order_history], and of the two output
    encodings [format_response] and [export_data], followed by the properties
    of the specification that concern them.

    Conventions of the embedding:
    - a Python [dict] is an insertion-ordered association list with unique
      keys ([dict_get], [dict_set], [dict_contains]); iteration follows the
      list order, as [dict.items()] does;
    - exceptions are the [Err] results of the [result] monad;
    - quantities are exact integers ([Z]);
    - bucket keys are strings, compared as Python compares [str]
      (lexicographically, [String.le]). *)

From stdpp Require Import base list strings sorting gmap.
From Stdlib Require Import ZArith.

Local Open Scope string_scope.
Local Open Scope list_scope.
Local Open Scope Z_scope.

(** ** Exceptions and the error monad *)

Inductive error :=
  | InvalidRangeError
  | UnsupportedPeriodError
  | MissingTimestampError
  | UnsupportedExportFormatError
  | KeyError
  | TypeError.

Inductive result (A : Type) :=
  | Ok (a : A)
  | Err (e : error).
Arguments Ok {A} a.
Arguments Err {A} e.

#[global] Instance error_eq_dec : EqDecision error.
Proof. solve_decision. Defined.

#[global] Instance result_eq_dec {A} `{EqDecision A} : EqDecision (result A).
Proof. solve_decision. Defined.

#[global] Instance result_ret : MRet result := @Ok.
#[global] Instance result_bind : MBind result :=
  λ A B f m, match m with Ok a => f a | Err e => Err e end.
#[global] Instance result_fmap : FMap result :=
  λ A B f m, match m with Ok a => Ok (f a) | Err e => Err e end.

(** [mapM] for [result]: the first failing element aborts the loop. *)
Fixpoint result_mapM {A B} (f : A → result B) (l : list A) : result (list B) :=
  match l with
  | [] => Ok []
  | x :: l => y ← f x; ys ← result_mapM f l; Ok (y :: ys)
  end.

(** ** Python dictionaries *)

Abbreviation dict K V := (list (K * V)).

Section dict.
Context {K V : Type} `{EqDecision K}.
Implicit Types (d : dict K V).

(** [d.get(k)], [None] when the key is absent. *)
Fixpoint dict_get (k : K) d : option V :=
  match d with
  | [] => None
  | (k', v) :: d => if decide (k = k') then Some v else dict_get k d
  end.

(** [k in d] *)
Definition dict_contains (k : K) d : bool :=
  match dict_get k d with Some _ => true | None => false end.

(** [d[k]], raising [KeyError] when the key is absent. *)
Definition dict_getitem (k : K) d : result V :=
  match dict_get k d with Some v => Ok v | None => Err KeyError end.

(** [d.get(k, default)] *)
Definition dict_get_default (k : K) (default : V) d : V :=
  match dict_get k d with Some v => v | None => default end.

(** [d[k] = v]: an existing key keeps its position, a new key goes last. *)
Fixpoint dict_set (k : K) (v : V) d : dict K V :=
  match d with
  | [] => [(k, v)]
  | (k', v') :: d =>
      if decide (k = k') then (k, v) :: d else (k', v') :: dict_set k v d
  end.

Definition dict_keys d : list K := d.*1.
Definition dict_values d : list V := d.*2.
Definition dict_items d : list (K * V) := d.

(** The representation invariant of a dictionary: no key occurs twice. *)
Definition dict_wf d : Prop := NoDup (dict_keys d).

(** The mapping a dictionary denotes; Python's [==] on dictionaries
    compares these. *)
Definition dict_map `{Countable K} d : gmap K V := list_to_map d.
End dict.

(** ** Data model *)

(** [datetime.date], ordered as Python orders dates. *)
Record Date := { year : Z; month : Z; day : Z }.

Definition date_leb (a b : Date) : bool :=
  if decide (year a = year b) then
    if decide (month a = month b) then bool_decide (day a ≤ day b)
    else bool_decide (month a < month b)
  else bool_decide (year a < year b).

Definition date_ltb (a b : Date) : bool := negb (date_leb b a).

(** The [period] request parameter. *)
Inductive Period := Day | Week | Month | Year.

(** The part model: only the fields the view reads. *)
Record Part := { pk : Z; name : string; IPN : string }.

#[global] Instance Date_eq_dec : EqDecision Date.
Proof. solve_decision. Defined.
#[global] Instance Part_eq_dec : EqDecision Part.
Proof. solve_decision. Defined.

(** A row of the build table: only the fields the view reads. *)
Module Build.
Record t := {
  part : Part;
  status : Z;
  completed : Z;
  completion_date : option Date;
  quantity : Z
}.
End Build.

#[global] Instance Build_eq_dec : EqDecision Build.t.
Proof. solve_decision. Defined.

(** One element of a history list: [{'date': ..., 'quantity': ...}]. *)
Record HistoryEntry := { date : string; quantity : Z }.

(** One element of the response: [{'part': ..., 'history': ...}]. *)
Record ResponseItem := { part : Part; history : list HistoryEntry }.

(** A cell of the tabular export. *)
Inductive cell := CInt (z : Z) | CStr (s : string).

(** [tablib.Dataset]: a header row and the rows appended so far. *)
Record Dataset := { headers : list cell; rows : list (list cell) }.

(** What a handler hands back to the framework: a [Response] around the
    list given to the response serializer, a file download, or, from the
    generators that are not written yet, a bare list. *)
Inductive HttpResult :=
  | Response (data : list ResponseItem)
  | DownloadFile (data : string) (filename : string)
  | PlainList (items : list ResponseItem).

(** The validated request parameters ([serializer.validated_data]); an
    optional key that is absent reads as [None]. *)
Module Data.
Record t := {
  start_date : Date;
  end_date : Date;
  period : option Period;
  order_type : option string;
  part : option Part;
  export : option string
}.
End Data.

(** The attributes [get] stores on [self]. *)
Record HistoryView := {
  start_date : Date;
  end_date : Date;
  period : Period;
  order_type : option string;
  self_part : option Part;
  export_format : option string;
  date_range : list string
}.

(** Reads of the build table, in the order they happen. *)
Inductive event := QueryBuilds.

(** The sparse aggregate: part id -> bucket key -> accumulated quantity. *)
Abbreviation Aggregate := (dict Z (dict string Z)).

(** ** [sorted(history, key=...)]

    Python's [sorted] is stable; so is this insertion sort, which puts an
    element in front of the first one whose key is not smaller. *)

Section sorted.
Context {A : Type} (key : A → string).

Fixpoint insert_by (x : A) (l : list A) : list A :=
  match l with
  | [] => [x]
  | y :: l' =>
      if decide (String.le (key x) (key y)) then x :: l else y :: insert_by x l'
  end.

Definition sorted (l : list A) : list A := foldr insert_by [] l.
End sorted.

(** A left fold whose body may fail: the [for] loop of the aggregation. *)
Fixpoint result_foldM {S A} (f : S → A → result S) (s : S) (l : list A)
    : result S :=
  match l with
  | [] => Ok s
  | x :: l => s' ← f s x; result_foldM f s' l
  end.

(** Truth value of an optional string ([None] and the empty string are
    false). *)
Definition truthy (s : option string) : bool :=
  match s with
  | Some s => negb (bool_decide (s = ""))
  | None => false
  end.

(** [sum(...)] over quantities. *)
Definition Zsum (l : list Z) : Z := foldr Z.add 0 l.

(** ** The view *)

Section HistoryView.
(** The collaborators of the view, outside this module: the period
    calendar on well-formed input, the status group of completed builds,
    the part tree, the translation catalogue and the tabular sink. *)
Variable bucket_key : Date → Period → string.
Variable bucket_sequence : Date → Date → Period → list string.
Variable COMPLETE : list Z.
Variable get_descendants : Part → list Z.
Variable gettext : string → string.
Variable tablib_export : Dataset → option string → option string.

(** Modelled from the spec: [helpers.convert_date] is missing from the
    sources. It maps a timestamp to the key of the period instance that
    contains it ([bucket_key]); a record without a completion timestamp
    that reaches the aggregation fails with [MissingTimestampError]. *)
Definition convert_date (d : option Date) (p : Period) : result string :=
  match d with
  | Some d => Ok (bucket_key d p)
  | None => Err MissingTimestampError
  end.

(** Modelled from the spec: [helpers.construct_date_range] is missing from
    the sources. It fails with [InvalidRangeError] unless start <= end, and
    otherwise returns the bucket sequence of the range; the period is a
    member of the enumeration by its type, so [UnsupportedPeriodError]
    cannot arise here. *)
Definition construct_date_range (s e : Date) (p : Period)
    : result (list string) :=
  if date_ltb e s then Err InvalidRangeError else Ok (bucket_sequence s e p).

(** *** The aggregation loop of [generate_build_order_history] *)

(** The [builds] queryset, as a filter of the build table. *)
Definition in_date_range (self : HistoryView) (d : option Date) : bool :=
  match d with
  | Some d => date_leb (start_date self) d && date_leb d (end_date self)
  | None => false
  end.

Definition builds_queryset (self : HistoryView) (db : list Build.t)
    : list Build.t :=
  let builds := db in
  let builds :=
    match self_part self with
    | Some p =>
        let parts := get_descendants p in
        filter (λ b, pk (Build.part b) ∈ parts) builds
    | None => builds
    end in
  let builds :=
    filter (λ b, Build.status b ∈ COMPLETE ∧ 0 < Build.completed b) builds in
  let builds := filter (λ b, Build.completion_date b ≠ None) builds in
  filter (λ b, in_date_range self (Build.completion_date b) = true) builds.

(** The body of [for build in builds]. *)
Definition aggregate_step (p : Period) (st : dict Z Part * Aggregate)
    (build : Build.t) : result (dict Z Part * Aggregate) :=
  let '(parts, history_items) := st in
  let part := Build.part build in
  let parts :=
    if negb (dict_contains (pk part) parts)
    then dict_set (pk part) part parts else parts in
  let history_items :=
    if negb (dict_contains (pk part) history_items)
    then dict_set (pk part) [] history_items else history_items in
  date_key ← convert_date (Build.completion_date build) p;
  entries ← dict_getitem (pk part) history_items;
  let entries :=
    if negb (dict_contains date_key entries)
    then dict_set date_key 0 entries else entries in
  q ← dict_getitem date_key entries;
  let entries := dict_set date_key (q + Build.quantity build) entries in
  Ok (parts, dict_set (pk part) entries history_items).

Definition aggregate_loop (p : Period) (builds : list Build.t)
    : result (dict Z Part * Aggregate) :=
  result_foldM (aggregate_step p) ([], []) builds.

(** *** [format_response] and [export_data] *)

(** The dense history of one part: the sparse entries, a zero entry for
    every key of the date range that is absent, sorted by date key. *)
Definition zero_fill (date_range : list string) (entries : dict string Z)
    (history : list HistoryEntry) : list HistoryEntry :=
  foldl (λ history date_key,
           if negb (dict_contains date_key entries)
           then history ++ [{| date := date_key; quantity := 0 |}]
           else history)
        history date_range.

Definition dense_history (date_range : list string) (entries : dict string Z)
    : list HistoryEntry :=
  let history :=
    (λ '(date_key, quantity), {| date := date_key; quantity := quantity |})
      <$> dict_items entries in
  let history := zero_fill date_range entries history in
  sorted date history.

Definition response_items (self : HistoryView) (part_dict : dict Z Part)
    (history_items : Aggregate) : result (list ResponseItem) :=
  result_mapM
    (λ '(part_id, entries),
       let history := dense_history (date_range self) entries in
       part ← dict_getitem part_id part_dict;
       Ok {| part := part; history := history |})
    (dict_items history_items).

Definition export_headers (self : HistoryView) : list cell :=
  [CStr (gettext "Part ID"); CStr (gettext "Part Name"); CStr (gettext "IPN")]
    ++ (CStr <$> date_range self).

Definition export_row (self : HistoryView) (part_id : Z) (part : Part)
    (entries : dict string Z) : list cell :=
  let quantities :=
    (λ key, dict_get_default key 0 entries) <$> date_range self in
  [CInt part_id; CStr (name part); CStr (IPN part)] ++ (CInt <$> quantities).

Definition export_rows (self : HistoryView) (part_dict : dict Z Part)
    (history_items : Aggregate) : result (list (list cell)) :=
  result_mapM
    (λ '(part_id, entries),
       part ← dict_getitem part_id part_dict;
       Ok (export_row self part_id part entries))
    (dict_items history_items).

Definition export_dataset (self : HistoryView) (part_dict : dict Z Part)
    (history_items : Aggregate) : result Dataset :=
  rows ← export_rows self part_dict history_items;
  Ok {| headers := export_headers self; rows := rows |}.

Definition export_data (self : HistoryView) (part_dict : dict Z Part)
    (history_items : Aggregate) : result HttpResult :=
  dataset ← export_dataset self part_dict history_items;
  match tablib_export dataset (export_format self) with
  | Some data =>
      Ok (DownloadFile data
            ("order_history." +:+ default "None" (export_format self)))
  | None => Err UnsupportedExportFormatError
  end.

Definition format_response (self : HistoryView) (part_dict : dict Z Part)
    (history_items : Aggregate) : result HttpResult :=
  if truthy (export_format self)
  then export_data self part_dict history_items
  else
    response ← response_items self part_dict history_items;
    Ok (Response response).

(** *** The generators and [get] *)

Definition generate_build_order_history (self : HistoryView)
    (db : list Build.t) : list event * result HttpResult :=
  let builds := builds_queryset self db in
  ([QueryBuilds],
   '(parts, history_items) ← aggregate_loop (period self) builds;
   format_response self parts history_items).

Definition generate_purchase_order_history (self : HistoryView)
    (db : list Build.t) : list event * result HttpResult :=
  ([], Ok (PlainList [])).

Definition generate_sales_order_history (self : HistoryView)
    (db : list Build.t) : list event * result HttpResult :=
  ([], Ok (PlainList [])).

Definition generate_return_order_history (self : HistoryView)
    (db : list Build.t) : list event * result HttpResult :=
  ([], Ok (PlainList [])).

Definition generators
    : dict string (HistoryView → list Build.t → list event * result HttpResult) :=
  [ ("build", generate_build_order_history);
    ("purchase", generate_purchase_order_history);
    ("sales", generate_sales_order_history);
    ("return", generate_return_order_history) ].

Definition get (data : Data.t) (db : list Build.t)
    : list event * result HttpResult :=
  let start_date := Data.start_date data in
  let end_date := Data.end_date data in
  let period := default Month (Data.period data) in
  match construct_date_range start_date end_date period with
  | Err e => ([], Err e)
  | Ok date_range =>
      let self :=
        {| start_date := start_date; end_date := end_date;
           period := period; order_type := Data.order_type data;
           self_part := Data.part data;
           export_format := Data.export data;
           date_range := date_range |} in
      match order_type self with
      | Some ot =>
          match dict_get ot generators with
          | Some generator => generator self db
          | None => ([], Ok (Response []))
          end
      | None => ([], Ok (Response []))
      end
  end.

(** *** Vocabulary of the properties *)

(** The raw records of one part, and those of one part in one bucket. *)
Definition records_of (part_id : Z) (builds : list Build.t) : list Build.t :=
  filter (λ b, pk (Build.part b) = part_id) builds.

Definition records_in (p : Period) (part_id : Z) (date_key : string)
    (builds : list Build.t) : list Build.t :=
  filter (λ b, pk (Build.part b) = part_id
               ∧ convert_date (Build.completion_date b) p = Ok date_key)
         builds.

(** What the records say the aggregate holds for a part and a bucket:
    nothing when no record falls there, else the sum of their quantities. *)
Definition bucket_total (p : Period) (part_id : Z) (date_key : string)
    (builds : list Build.t) : option Z :=
  match records_in p part_id date_key builds with
  | [] => None
  | rs => Some (Zsum (Build.quantity <$> rs))
  end.

(** One iteration of the loop in closed form, for a record with a
    timestamp [d]: the part is registered on first sight, and the quantity
    is added to the bucket of the part, both created on first touch. *)
Definition step_parts (parts : dict Z Part) (b : Build.t) : dict Z Part :=
  if dict_contains (pk (Build.part b)) parts then parts
  else dict_set (pk (Build.part b)) (Build.part b) parts.

Definition step_history (p : Period) (d : Date) (hist : Aggregate)
    (b : Build.t) : Aggregate :=
  let e0 : dict string Z := dict_get_default (pk (Build.part b)) [] hist in
  let date_key := bucket_key d p in
  dict_set (pk (Build.part b))
    (dict_set date_key (dict_get_default date_key 0 e0 + Build.quantity b) e0)
    hist.
End HistoryView.

(** The order types [get] has a generator for. *)
Definition recognized_order_types : list string :=
  ["build"; "purchase"; "sales"; "return"].

(** ** [get] as [views.py] writes it

    [get] hands the two dates and the period to
    [helpers.construct_date_range] and keeps what comes back in
    [self.date_range]; it compares no dates itself and has neither [raise]
    nor [try]. Here the helper is a parameter, any function that returns its
    list, and the lines of [get] are the ones of [get] above, which runs them
    after the helper of the specification (lemma [get_get_with_helper]). *)
Section get_with_helper.
Variable bucket_key : Date → Period → string.
Variable date_range_of : Date → Date → Period → list string.
Variable COMPLETE : list Z.
Variable get_descendants : Part → list Z.
Variable gettext : string → string.
Variable tablib_export : Dataset → option string → option string.

Definition get_with_helper (data : Data.t) (db : list Build.t)
    : list event * result HttpResult :=
  let start_date := Data.start_date data in
  let end_date := Data.end_date data in
  let period := default Month (Data.period data) in
  let date_range := date_range_of start_date end_date period in
  let self :=
    {| start_date := start_date; end_date := end_date;
       period := period; order_type := Data.order_type data;
       self_part := Data.part data;
       export_format := Data.export data;
       date_range := date_range |} in
  match order_type self with
  | Some ot =>
      match dict_get ot (generators bucket_key COMPLETE get_descendants
                           gettext tablib_export) with
      | Some generator => generator self db
      | None => ([], Ok (Response []))
      end
  | None => ([], Ok (Response []))
  end.
End get_with_helper.

(** [history_items[part_id][date_key]] when both keys are present. *)
Definition aggregate_get (part_id : Z) (date_key : string) (a : Aggregate)
    : option Z :=
  dict_get part_id a ≫= dict_get date_key.

(** The mapping an aggregate denotes: two aggregates are equal for Python's
    [==] exactly when these maps are equal. *)
Definition aggregate_map (a : Aggregate) : gmap Z (gmap string Z) :=
  dict_map <$> dict_map a.

(** Keys in ascending order. *)
Definition ascending (keys : list string) : Prop := Sorted String.le keys.

(** ** The output paths over a store of mutable objects

    [format_response] and [export_data] receive references to dictionaries
    that their caller still holds. Here the same code runs over a store:
    every dictionary and list is an object at a location, [append] updates
    the object in place, and a failing lookup raises with the store as it is
    at that point; a dangling reference or an object of the wrong kind
    raises [TypeError]. *)

Abbreviation loc := nat.

Inductive obj :=
  | OPartDict (d : dict Z Part)
  | OHistoryItems (d : dict Z loc)
  | OEntries (d : dict string Z)
  | OHistory (l : list HistoryEntry)
  | OResponse (l : list (Part * loc))
  | ODataset (ds : Dataset).

Abbreviation store := (list obj).

Definition Heap (A : Type) : Type := store → result A * store.

Definition heap_ret {A} (a : A) : Heap A := λ h, (Ok a, h).
Definition heap_bind {A B} (m : Heap A) (f : A → Heap B) : Heap B :=
  λ h, match m h with
       | (Ok a, h') => f a h'
       | (Err e, h') => (Err e, h')
       end.
Definition heap_raise {A} (e : error) : Heap A := λ h, (Err e, h).

Declare Scope heap_scope.
Delimit Scope heap_scope with heap.
Notation "x ←ₕ m ; k" := (heap_bind m (λ x, k))
  (at level 20, m at level 100, k at level 200, right associativity,
   format "x  ←ₕ  m ;  '/' k") : heap_scope.
Notation "m ;;ₕ k" := (heap_bind m (λ _, k))
  (at level 100, k at level 200, right associativity) : heap_scope.
Local Open Scope heap_scope.

(** Object creation, reading a reference, updating an object in place. *)
Definition alloc (o : obj) : Heap loc := λ h, (Ok (length h), h ++ [o]).
Definition load (l : loc) : Heap obj :=
  λ h, match h !! l with
       | Some o => (Ok o, h)
       | None => (Err TypeError, h)
       end.
Definition store_at (l : loc) (o : obj) : Heap unit :=
  λ h, (Ok (), <[l := o]> h).

(** [for x in xs: body(x)] *)
Fixpoint heap_for {A} (xs : list A) (body : A → Heap unit) : Heap unit :=
  match xs with
  | [] => heap_ret ()
  | x :: xs => body x ;;ₕ heap_for xs body
  end.

(** [history_items.items()] *)
Definition history_items_items (l : loc) : Heap (list (Z * loc)) :=
  o ←ₕ load l;
  match o with
  | OHistoryItems d => heap_ret (dict_items d)
  | _ => heap_raise TypeError
  end.

(** [entries.items()], [key in entries], [entries.get(key, 0)] *)
Definition load_entries (l : loc) : Heap (dict string Z) :=
  o ←ₕ load l;
  match o with
  | OEntries d => heap_ret d
  | _ => heap_raise TypeError
  end.
Definition entries_items (l : loc) : Heap (list (string * Z)) :=
  d ←ₕ load_entries l; heap_ret (dict_items d).
Definition entries_contains (l : loc) (k : string) : Heap bool :=
  d ←ₕ load_entries l; heap_ret (dict_contains k d).
Definition entries_get_default (l : loc) (k : string) (default : Z) : Heap Z :=
  d ←ₕ load_entries l; heap_ret (dict_get_default k default d).

(** [part_dict[part_id]] *)
Definition part_dict_getitem (l : loc) (k : Z) : Heap Part :=
  o ←ₕ load l;
  match o with
  | OPartDict d =>
      match dict_get k d with
      | Some p => heap_ret p
      | None => heap_raise KeyError
      end
  | _ => heap_raise TypeError
  end.

(** [history.append(x)], [sorted(history, ...)] (a new list) *)
Definition load_history (l : loc) : Heap (list HistoryEntry) :=
  o ←ₕ load l;
  match o with
  | OHistory hs => heap_ret hs
  | _ => heap_raise TypeError
  end.
Definition history_append (l : loc) (x : HistoryEntry) : Heap unit :=
  hs ←ₕ load_history l; store_at l (OHistory (hs ++ [x])).
Definition history_sorted (l : loc) : Heap loc :=
  hs ←ₕ load_history l; alloc (OHistory (sorted date hs)).

(** [response.append(x)] *)
Definition response_append (l : loc) (x : Part * loc) : Heap unit :=
  o ←ₕ load l;
  match o with
  | OResponse xs => store_at l (OResponse (xs ++ [x]))
  | _ => heap_raise TypeError
  end.

(** [dataset.append(row)] *)
Definition load_dataset (l : loc) : Heap Dataset :=
  o ←ₕ load l;
  match o with
  | ODataset ds => heap_ret ds
  | _ => heap_raise TypeError
  end.
Definition dataset_append (l : loc) (row : list cell) : Heap unit :=
  ds ←ₕ load_dataset l;
  store_at l (ODataset {| headers := headers ds; rows := rows ds ++ [row] |}).

(** Reading the finished response out of the store, as the response
    serializer does. *)
Fixpoint read_response_items (xs : list (Part * loc))
    : Heap (list ResponseItem) :=
  match xs with
  | [] => heap_ret []
  | (p, l) :: xs =>
      hs ←ₕ load_history l;
      items ←ₕ read_response_items xs;
      heap_ret ({| part := p; history := hs |} :: items)
  end.
Definition read_response (l : loc) : Heap (list ResponseItem) :=
  o ←ₕ load l;
  match o with
  | OResponse xs => read_response_items xs
  | _ => heap_raise TypeError
  end.

(** [[entries.get(key, 0) for key in self.date_range]] *)
Fixpoint read_quantities (entries : loc) (keys : list string) : Heap (list Z) :=
  match keys with
  | [] => heap_ret []
  | key :: keys =>
      q ←ₕ entries_get_default entries key 0;
      qs ←ₕ read_quantities entries keys;
      heap_ret (q :: qs)
  end.

Section HistoryViewStore.
Variable gettext : string → string.
Variable tablib_export : Dataset → option string → option string.

(** The body of the loop of [export_data]. *)
Definition export_row_store (self : HistoryView) (part_dict dataset : loc)
    (item : Z * loc) : Heap unit :=
  let '(part_id, entries) := item in
  part ←ₕ part_dict_getitem part_dict part_id;
  quantities ←ₕ read_quantities entries (date_range self);
  let row :=
    [CInt part_id; CStr (name part); CStr (IPN part)]
      ++ (CInt <$> quantities) in
  dataset_append dataset row.

Definition export_data_store (self : HistoryView)
    (part_dict history_items : loc) : Heap HttpResult :=
  dataset ←ₕ alloc (ODataset {| headers := export_headers gettext self;
                                rows := [] |});
  items ←ₕ history_items_items history_items;
  heap_for items (export_row_store self part_dict dataset) ;;ₕ
  ds ←ₕ load_dataset dataset;
  match tablib_export ds (export_format self) with
  | Some data =>
      heap_ret (DownloadFile data
                  ("order_history." +:+ default "None" (export_format self)))
  | None => heap_raise UnsupportedExportFormatError
  end.

(** "Ensure that all date keys are present" *)
Definition zero_fill_store (self : HistoryView) (entries history : loc)
    : Heap unit :=
  heap_for (date_range self) (λ date_key,
    present ←ₕ entries_contains entries date_key;
    if negb present
    then history_append history {| date := date_key; quantity := 0 |}
    else heap_ret ()).

(** The body of the loop of [format_response]. *)
Definition response_item_store (self : HistoryView) (part_dict response : loc)
    (item : Z * loc) : Heap unit :=
  let '(part_id, entries) := item in
  es ←ₕ entries_items entries;
  history ←ₕ alloc (OHistory
    ((λ '(date_key, quantity),
        {| date := date_key; quantity := quantity |}) <$> es));
  zero_fill_store self entries history ;;ₕ
  history ←ₕ history_sorted history;
  part ←ₕ part_dict_getitem part_dict part_id;
  response_append response (part, history).

Definition format_response_store (self : HistoryView)
    (part_dict history_items : loc) : Heap HttpResult :=
  if truthy (export_format self)
  then export_data_store self part_dict history_items
  else
    response ←ₕ alloc (OResponse []);
    items ←ₕ history_items_items history_items;
    heap_for items (response_item_store self part_dict response) ;;ₕ
    data ←ₕ read_response response;
    heap_ret (Response data).
End HistoryViewStore.

(** A store holds the dictionaries [part_dict] and [history_items] at two
    locations when the objects there, and the entries objects the outer
    dictionary refers to, have these contents. *)
Definition holds_aggregate (h : store) (pd hi : loc) (part_dict : dict Z Part)
    (history_items : Aggregate) : Prop :=
  h !! pd = Some (OPartDict part_dict) ∧
  ∃ refs : dict Z loc,
    h !! hi = Some (OHistoryItems refs) ∧
    Forall2 (λ r x, r.1 = x.1 ∧ h !! r.2 = Some (OEntries x.2))
            refs history_items.

(** A store holds a response list when the history lists its elements
    refer to have these contents. *)
Definition holds_response (h : store) (xs : list (Part * loc))
    (items : list ResponseItem) : Prop :=
  Forall2 (λ x item, x.1 = part item
                     ∧ h !! x.2 = Some (OHistory (history item)))
          xs items.

(** A computation keeps a store [h0] when, started in a store that extends
    [h0], it ends in a store that extends [h0]: it may create objects and
    update the objects it created, and nothing else. [post] is what is known
    of its result; a location is [created] when it lies beyond [h0]. *)
Definition keeps (h0 : store) {A} (m : Heap A) (post : A → Prop) : Prop :=
  ∀ h, h0 `prefix_of` h →
       h0 `prefix_of` (m h).2 ∧ ∀ a, (m h).1 = Ok a → post a.

Definition created (h0 : store) (l : loc) : Prop := (length h0 ≤ l)%nat.

(** ** The scenario of the specification

    Three completed builds of two parts in the first quarter of 2024,
    bucketed by month, with a monthly calendar for the keys. *)

Module Scenario.
Definition digit (n : Z) : string :=
  String (Ascii.ascii_of_N (Z.to_N (48 + n `mod` 10))) "".
Definition digits2 (n : Z) : string := digit (n `div` 10) +:+ digit n.
Definition digits4 (n : Z) : string := digits2 (n `div` 100) +:+ digits2 n.

Definition month_key (d : Date) (p : Period) : string :=
  digits4 (year d) +:+ "-" +:+ digits2 (month d).

Definition month_index (d : Date) : Z := year d * 12 + (month d - 1).

Definition month_sequence (s e : Date) (p : Period) : list string :=
  (λ i, month_key {| year := i `div` 12; month := i `mod` 12 + 1; day := 1 |} p)
    <$> seqZ (month_index s) (month_index e - month_index s + 1).

Definition COMPLETE : list Z := [40].
Definition get_descendants (p : Part) : list Z := [pk p].
Definition gettext (s : string) : string := s.
Definition tablib_export (ds : Dataset) (fmt : option string)
    : option string :=
  match fmt with
  | Some "csv" => Some "csv-bytes"
  | _ => None
  end.

Definition P1 : Part := {| pk := 1; name := "Widget"; IPN := "W-001" |}.
Definition P2 : Part := {| pk := 2; name := "Gadget"; IPN := "G-002" |}.

Definition build (p : Part) (q : Z) (y m d : Z) : Build.t :=
  {| Build.part := p; Build.status := 40; Build.completed := q;
     Build.completion_date := Some {| year := y; month := m; day := d |};
     Build.quantity := q |}.

Definition builds : list Build.t :=
  [build P1 5 2024 1 15; build P1 3 2024 2 10; build P2 2 2024 1 20].

(** The same records in another order. *)
Definition shuffled : list Build.t :=
  [build P1 3 2024 2 10; build P1 5 2024 1 15; build P2 2 2024 1 20].

(** A build of [P2] that was never given a completion date. *)
Definition undated : Build.t :=
  {| Build.part := P2; Build.status := 40; Build.completed := 4;
     Build.completion_date := None; Build.quantity := 4 |}.

Definition data (order_type export : option string) : Data.t :=
  {| Data.start_date := {| year := 2024; month := 1; day := 1 |};
     Data.end_date := {| year := 2024; month := 3; day := 31 |};
     Data.period := Some Month;
     Data.order_type := order_type;
     Data.part := None;
     Data.export := export |}.

(** The same request with the two dates exchanged. *)
Definition reversed (order_type export : option string) : Data.t :=
  {| Data.start_date := {| year := 2024; month := 3; day := 31 |};
     Data.end_date := {| year := 2024; month := 1; day := 1 |};
     Data.period := Some Month;
     Data.order_type := order_type;
     Data.part := None;
     Data.export := export |}.

Definition self (export : option string) : HistoryView :=
  {| start_date := {| year := 2024; month := 1; day := 1 |};
     end_date := {| year := 2024; month := 3; day := 31 |};
     period := Month; order_type := Some "build"; self_part := None;
     export_format := export;
     date_range := ["2024-01"; "2024-02"; "2024-03"] |}.

Definition parts : dict Z Part := [(1, P1); (2, P2)].
Definition history_items : Aggregate :=
  [(1, [("2024-01", 5); ("2024-02", 3)]); (2, [("2024-01", 2)])].

(** A store holding [parts] at 0 and [history_items] at 1. *)
Definition store0 : store :=
  [ OPartDict parts; OHistoryItems [(1, 2%nat); (2, 3%nat)];
    OEntries [("2024-01", 5); ("2024-02", 3)]; OEntries [("2024-01", 2)] ].

Definition get := get month_key month_sequence COMPLETE get_descendants
                      gettext tablib_export.
Definition aggregate_loop := aggregate_loop month_key.
End Scenario.

(** ** Vocabulary of the further properties *)

(** The distinct elements of a list, in the order of their first
    occurrence. *)
Fixpoint first_seen (ks : list Z) : list Z :=
  match ks with
  | [] => []
  | k :: ks => k :: filter (λ k', k' ≠ k) (first_seen ks)
  end.

(** The part ids of a list of builds, record by record. *)
Definition part_ids (builds : list Build.t) : list Z :=
  (λ b, pk (Build.part b)) <$> builds.

(** The attributes [get] leaves on [self] once the date range is built. *)
Definition view_of (data : Data.t) (date_range : list string) : HistoryView :=
  {| start_date := Data.start_date data;
     end_date := Data.end_date data;
     period := default Month (Data.period data);
     order_type := Data.order_type data;
     self_part := Data.part data;
     export_format := Data.export data;
     date_range := date_range |}.

(** What the queryset of [generate_build_order_history] asks of a build. *)
Definition qualifies (COMPLETE : list Z) (get_descendants : Part → list Z)
    (self : HistoryView) (b : Build.t) : Prop :=
  (∀ p, self_part self = Some p → pk (Build.part b) ∈ get_descendants p)
  ∧ Build.status b ∈ COMPLETE
  ∧ 0 < Build.completed b
  ∧ ∃ d, Build.completion_date b = Some d
         ∧ date_leb (start_date self) d = true
         ∧ date_leb d (end_date self) = true.

(** The number in a quantity cell of the export. *)
Definition cell_value (c : cell) : Z :=
  match c with
  | CInt z => z
  | CStr _ => 0
  end.

(** Two aggregates merged: the buckets of a part present in both are added
    key by key. *)
Definition merge_aggregates (m1 m2 : gmap Z (gmap string Z))
    : gmap Z (gmap string Z) :=
  union_with (λ e1 e2, Some (union_with (λ a b, Some (a + b)) e1 e2)) m1 m2.

(** Further data on the scenario: a build table with rows the queryset
    rejects, an aggregate with a bucket key outside the date range, and a
    part dictionary that lacks a descriptor. *)
Module Edge.
Definition table : list Build.t :=
  [ Scenario.build Scenario.P1 5 2024 1 15;
    {| Build.part := Scenario.P1; Build.status := 10; Build.completed := 9;
       Build.completion_date := Some {| year := 2024; month := 2; day := 1 |};
       Build.quantity := 9 |};
    Scenario.build Scenario.P2 2 2024 1 20;
    Scenario.build Scenario.P2 6 2023 12 31;
    Scenario.undated;
    Scenario.build Scenario.P1 3 2024 2 10 ].

Definition view : HistoryView :=
  view_of (Scenario.data (Some "build") None) ["2024-01"; "2024-02"; "2024-03"].

Definition stray_entries : dict string Z := [("2023-12", 7); ("2024-01", 5)].
Definition stray_history_items : Aggregate := [(1, stray_entries)].

Definition orphan_parts : dict Z Part := [(1, Scenario.P1)].
End Edge.

(** * Properties *)

(** ** The error monad *)

Lemma result_foldM_app {S A} (f : S → A → result S) (s : S) (l1 l2 : list A) :
  result_foldM f s (l1 ++ l2) = s' ← result_foldM f s l1; result_foldM f s' l2.
Proof.
  revert s. induction l1 as [|x l1 IH]; intros s; simpl; [done|].
  destruct (f s x) as [s'|e]; simpl; [apply IH|done].
Qed.

Lemma result_foldM_snoc {S A} (f : S → A → result S) (s : S) (l : list A) x :
  result_foldM f s (l ++ [x]) = s' ← result_foldM f s l; f s' x.
Proof.
  rewrite result_foldM_app. destruct (result_foldM f s l) as [s'|e]; simpl; [|done].
  by destruct (f s' x).
Qed.

Lemma result_mapM_Ok {A B} (f : A → result B) (g : A → B) (l : list A) :
  (∀ x, x ∈ l → f x = Ok (g x)) → result_mapM f l = Ok (g <$> l).
Proof.
  induction l as [|x l IH]; intros Hf; simpl; [done|].
  rewrite (Hf x) by left. simpl. rewrite IH; [done|].
  intros y Hy. apply Hf. by right.
Qed.

Lemma result_mapM_lookup {A B} (f : A → result B) (l : list A) (r : list B) :
  result_mapM f l = Ok r →
  length r = length l ∧ ∀ i x, l !! i = Some x → ∃ y, r !! i = Some y ∧ f x = Ok y.
Proof.
  revert r. induction l as [|x l IH]; intros r; simpl.
  - intros [= <-]. split; [done|]. intros i x. by rewrite lookup_nil.
  - destruct (f x) as [y|e] eqn:Hfx; simpl; [|done].
    destruct (result_mapM f l) as [ys|e] eqn:Hl; simpl; [|done].
    intros [= <-]. destruct (IH ys eq_refl) as [Hlen Hlk]. split; [simpl; by f_equal|].
    intros [|i] x'; simpl; [intros [= <-]; eauto|]. apply Hlk.
Qed.

(** ** Dictionaries *)

Section dict_facts.
Context {K V : Type} `{EqDecision K}.
Implicit Types (d : dict K V) (k : K) (v : V).

Lemma dict_get_set d k k' v :
  dict_get k (dict_set k' v d) = if decide (k = k') then Some v else dict_get k d.
Proof.
  induction d as [|[k0 v0] d IH]; simpl.
  - by destruct (decide (k = k')).
  - destruct (decide (k' = k0)) as [->|Hne]; simpl.
    + by destruct (decide (k = k0)).
    + destruct (decide (k = k0)) as [->|?]; [|done].
      by destruct (decide (k0 = k')) as [->|?].
Qed.

Lemma dict_set_set d k v v' : dict_set k v (dict_set k v' d) = dict_set k v d.
Proof.
  induction d as [|[k0 v0] d IH]; simpl.
  - by rewrite decide_True.
  - destruct (decide (k = k0)) as [->|Hne]; simpl.
    + by rewrite decide_True.
    + rewrite decide_False by done. by rewrite IH.
Qed.

Lemma dict_get_None d k : dict_get k d = None ↔ k ∉ dict_keys d.
Proof.
  unfold dict_keys. induction d as [|[k0 v0] d IH]; simpl.
  - split; [intros _; apply not_elem_of_nil|done].
  - rewrite not_elem_of_cons. destruct (decide (k = k0)); [|tauto].
    split; [done|tauto].
Qed.

Lemma dict_get_is_Some d k : is_Some (dict_get k d) ↔ k ∈ dict_keys d.
Proof.
  destruct (dict_get k d) eqn:Hg.
  - split; [intros _|by eauto]. destruct (decide (k ∈ dict_keys d)); [done|].
    apply dict_get_None in n. congruence.
  - split; [by intros [? ?]|]. intros. by apply dict_get_None in Hg.
Qed.

Lemma dict_contains_true d k : dict_contains k d = true ↔ k ∈ dict_keys d.
Proof.
  rewrite <-dict_get_is_Some. unfold dict_contains.
  destruct (dict_get k d); split; eauto; try done; by intros [? ?].
Qed.

Lemma dict_contains_false d k : dict_contains k d = false ↔ k ∉ dict_keys d.
Proof. rewrite <-dict_contains_true. by destruct (dict_contains k d). Qed.

Lemma dict_get_elem_of d k v : dict_get k d = Some v → (k, v) ∈ d.
Proof.
  induction d as [|[k0 v0] d IH]; simpl; [done|].
  destruct (decide (k = k0)) as [->|?].
  - intros [= ->]. left.
  - intros. right. auto.
Qed.

Lemma dict_wf_elem_of_get d k v : dict_wf d → (k, v) ∈ d → dict_get k d = Some v.
Proof.
  unfold dict_wf, dict_keys. induction d as [|[k0 v0] d IH]; simpl.
  - intros _ Hin. by apply elem_of_nil in Hin.
  - rewrite NoDup_cons. intros [Hk0 Hnd] Hin.
    apply elem_of_cons in Hin as [[= -> ->]|Hin]; [by rewrite decide_True|].
    destruct (decide (k = k0)) as [->|?]; [|auto].
    destruct Hk0. apply list_elem_of_fmap. by exists (k0, v).
Qed.

Lemma dict_keys_set d k v :
  dict_keys (dict_set k v d)
  = if dict_contains k d then dict_keys d else dict_keys d ++ [k].
Proof.
  unfold dict_keys, dict_contains. induction d as [|[k0 v0] d IH]; simpl; [done|].
  destruct (decide (k = k0)) as [->|?]; csimpl; [done|].
  rewrite IH. by destruct (dict_get k d).
Qed.

Lemma dict_wf_nil : dict_wf (K:=K) (V:=V) [].
Proof. apply NoDup_nil_2. Qed.

Lemma dict_wf_set d k v : dict_wf d → dict_wf (dict_set k v d).
Proof.
  unfold dict_wf. rewrite dict_keys_set.
  destruct (dict_contains k d) eqn:Hc; [done|].
  intros Hnd. apply NoDup_app. split_and!; [done| |apply NoDup_singleton].
  intros x Hx ->%list_elem_of_singleton. by apply dict_contains_false in Hc.
Qed.

Lemma dict_map_lookup `{Countable K} d k : dict_map d !! k = dict_get k d.
Proof.
  unfold dict_map. induction d as [|[k0 v0] d IH]; simpl; [done|].
  destruct (decide (k = k0)) as [->|?].
  - by rewrite lookup_insert_eq.
  - by rewrite lookup_insert_ne.
Qed.
End dict_facts.

(** ** Sums *)

Lemma Zsum_cons x l : Zsum (x :: l) = x + Zsum l.
Proof. done. Qed.

Lemma Zsum_app l1 l2 : Zsum (l1 ++ l2) = Zsum l1 + Zsum l2.
Proof. unfold Zsum. induction l1 as [|x l1 IH]; simpl; lia. Qed.

Lemma Zsum_Permutation l1 l2 : l1 ≡ₚ l2 → Zsum l1 = Zsum l2.
Proof. unfold Zsum. induction 1; simpl; lia. Qed.

Lemma Zsum_zeros {A} (l : list A) : Zsum ((λ _, 0) <$> l) = 0.
Proof. unfold Zsum. induction l as [|x l IH]; csimpl; [done|]. by rewrite IH. Qed.

Lemma Zsum_dict_set {K} `{EqDecision K} (d : dict K Z) k v :
  Zsum (dict_values (dict_set k v d))
  = Zsum (dict_values d) + v - dict_get_default k 0 d.
Proof.
  unfold dict_values, dict_get_default, Zsum.
  induction d as [|[k0 v0] d IH]; simpl; [lia|].
  destruct (decide (k = k0)) as [->|?]; csimpl; [lia|].
  rewrite IH. lia.
Qed.

(** ** [sorted] *)

Section sorted_facts.
Context {A : Type} (key : A → string).
Implicit Types (x : A) (l : list A).

Lemma insert_by_Permutation x l : insert_by key x l ≡ₚ x :: l.
Proof.
  induction l as [|y l IH]; simpl; [done|].
  destruct (decide _); [done|]. rewrite IH. apply Permutation_swap.
Qed.

Lemma sorted_Permutation l : sorted key l ≡ₚ l.
Proof.
  induction l as [|x l IH]; simpl; [done|].
  by rewrite insert_by_Permutation, IH.
Qed.

Lemma insert_by_keys x l :
  key <$> insert_by key x l = insert_by id (key x) (key <$> l).
Proof.
  induction l as [|y l IH]; simpl; [done|]. csimpl.
  destruct (decide _); csimpl; [done|]. by rewrite IH.
Qed.

Lemma sorted_keys l : key <$> sorted key l = sorted id (key <$> l).
Proof.
  induction l as [|x l IH]; simpl; [done|]. csimpl.
  by rewrite insert_by_keys, IH.
Qed.
End sorted_facts.

Lemma insert_by_ascending k ks : ascending ks → ascending (insert_by id k ks).
Proof.
  unfold ascending. induction 1 as [|k0 ks Hks IH Hhd]; simpl.
  - repeat constructor.
  - destruct (decide (String.le k k0)) as [Hle|Hnle].
    + constructor; [by constructor|by constructor].
    + assert (String.le k0 k) as Hle by (by destruct (total String.le k k0)).
      constructor; [done|].
      destruct Hhd as [|k1 ks' Hk1]; simpl; [by constructor|].
      destruct (decide (String.le k k1)); by constructor.
Qed.

Lemma sorted_ascending ks : ascending (sorted id ks).
Proof.
  induction ks as [|k ks IH]; simpl; [constructor|].
  by apply insert_by_ascending.
Qed.

Lemma ascending_unique ks1 ks2 :
  ascending ks1 → ascending ks2 → ks1 ≡ₚ ks2 → ks1 = ks2.
Proof. apply (Sorted_unique String.le). Qed.

(** ** The dense history of one part *)

Section dense_history_facts.
Implicit Types (dr : list string) (e : dict string Z) (x : HistoryEntry).

Local Abbreviation entry_of :=
  (λ '(date_key, quantity), {| date := date_key; quantity := quantity |}).
Local Abbreviation zero_at :=
  (λ date_key, {| date := date_key; quantity := 0 |}).

Lemma zero_fill_eq dr e (h : list HistoryEntry) :
  zero_fill dr e h = h ++ (zero_at <$> filter (λ k, k ∉ dict_keys e) dr).
Proof.
  unfold zero_fill. revert h. induction dr as [|k dr IH]; intros h; simpl.
  - by rewrite app_nil_r.
  - rewrite IH. destruct (dict_contains k e) eqn:Hc; simpl.
    + apply dict_contains_true in Hc. by rewrite filter_cons_False by tauto.
    + apply dict_contains_false in Hc. rewrite filter_cons_True by done.
      csimpl. by rewrite <-app_assoc.
Qed.

Lemma dense_history_eq dr e :
  dense_history dr e
  = sorted date ((entry_of <$> e)
                   ++ (zero_at <$> filter (λ k, k ∉ dict_keys e) dr)).
Proof. unfold dense_history, dict_items. by rewrite zero_fill_eq. Qed.

Lemma dense_history_Permutation dr e :
  dense_history dr e
  ≡ₚ (entry_of <$> e) ++ (zero_at <$> filter (λ k, k ∉ dict_keys e) dr).
Proof. rewrite dense_history_eq. apply sorted_Permutation. Qed.

Lemma entry_of_dates e : date <$> (entry_of <$> e) = dict_keys e.
Proof.
  unfold dict_keys. rewrite <-list_fmap_compose.
  apply list_fmap_ext. by intros _ [k q] _.
Qed.

Lemma entry_of_quantities e : quantity <$> (entry_of <$> e) = dict_values e.
Proof.
  unfold dict_values. rewrite <-list_fmap_compose.
  apply list_fmap_ext. by intros _ [k q] _.
Qed.

Lemma dense_history_dates_Permutation dr e :
  date <$> dense_history dr e
  ≡ₚ dict_keys e ++ filter (λ k, k ∉ dict_keys e) dr.
Proof.
  rewrite dense_history_Permutation, fmap_app, entry_of_dates.
  rewrite <-list_fmap_compose. by rewrite list_fmap_id.
Qed.

(** The keys of the sparse map, then the keys of the range it lacks: a
    rearrangement of the range when the map stays inside it. *)
Lemma keys_then_missing dr (ks : list string) :
  NoDup ks → NoDup dr → (∀ k, k ∈ ks → k ∈ dr) →
  ks ++ filter (λ k, k ∉ ks) dr ≡ₚ dr.
Proof.
  intros Hks Hdr Hincl. apply NoDup_Permutation; [|done|].
  - apply NoDup_app. split_and!; [done| |by apply NoDup_filter].
    intros k Hk [Hnk _]%list_elem_of_filter. done.
  - intros k. rewrite elem_of_app, list_elem_of_filter.
    destruct (decide (k ∈ ks)); intuition.
Qed.

Lemma dense_history_dates dr e :
  dict_wf e → NoDup dr → (∀ k, k ∈ dict_keys e → k ∈ dr) →
  date <$> dense_history dr e ≡ₚ dr.
Proof.
  intros. rewrite dense_history_dates_Permutation. by apply keys_then_missing.
Qed.

Lemma dense_history_ascending dr e : ascending (date <$> dense_history dr e).
Proof. rewrite dense_history_eq, sorted_keys. apply sorted_ascending. Qed.

Lemma dense_history_elem_of dr e x :
  x ∈ dense_history dr e ↔
  (date x, quantity x) ∈ e
  ∨ (quantity x = 0 ∧ date x ∈ dr ∧ date x ∉ dict_keys e).
Proof.
  rewrite dense_history_Permutation, elem_of_app, !list_elem_of_fmap.
  split.
  - intros [([k q] & -> & Hin)|(k & -> & Hin)]; simpl; [by left|right].
    apply list_elem_of_filter in Hin as [? ?]. by split_and!.
  - intros [Hin|(Hq & Hdr & Hne)].
    + left. exists (date x, quantity x). by destruct x.
    + right. exists (date x). rewrite list_elem_of_filter.
      destruct x; simpl in *; by subst.
Qed.

Lemma dense_history_Zsum dr e :
  Zsum (quantity <$> dense_history dr e) = Zsum (dict_values e).
Proof.
  rewrite (Zsum_Permutation _ _ (fmap_Permutation _ _ _ (dense_history_Permutation dr e))).
  rewrite fmap_app, Zsum_app, entry_of_quantities, <-list_fmap_compose.
  rewrite (Zsum_zeros (filter _ dr)). lia.
Qed.

(** What the dense history pairs with a key of the range. *)
Lemma dense_history_quantity dr e (B : string) :
  dict_wf e → B ∈ dr →
  {| date := B; quantity := dict_get_default B 0 e |} ∈ dense_history dr e
  ∧ ∀ x, x ∈ dense_history dr e → date x = B →
         quantity x = dict_get_default B 0 e.
Proof.
  intros Hwf HB. unfold dict_get_default. split.
  - apply dense_history_elem_of; simpl.
    destruct (dict_get B e) as [q|] eqn:Hg.
    + left. by apply dict_get_elem_of.
    + right. by apply dict_get_None in Hg.
  - intros x [Hin|(Hq & _ & Hne)]%dense_history_elem_of <-.
    + by rewrite (dict_wf_elem_of_get _ _ _ Hwf Hin).
    + apply dict_get_None in Hne. by rewrite Hne.
Qed.
End dense_history_facts.

(** ** The aggregation loop *)

Section aggregate_facts.
Variable bucket_key : Date → Period → string.

Local Abbreviation step := (aggregate_step bucket_key).
Local Abbreviation loop := (aggregate_loop bucket_key).
Local Abbreviation in_bucket := (records_in bucket_key).
Local Abbreviation total := (bucket_total bucket_key).
Local Abbreviation step_hist := (step_history bucket_key).

Implicit Types (p : Period) (b : Build.t) (l : list Build.t)
  (parts : dict Z Part) (hist : Aggregate).

Lemma aggregate_step_eq p parts hist b :
  step p (parts, hist) b
  = match Build.completion_date b with
    | Some d => Ok (step_parts parts b, step_hist p d hist b)
    | None => Err MissingTimestampError
    end.
Proof.
  unfold aggregate_step, step_parts, step_history, dict_getitem,
    dict_get_default, dict_contains.
  destruct (Build.completion_date b) as [d|]; simpl; [|done].
  destruct (dict_get (pk (Build.part b)) hist) as [e0|] eqn:He0; simpl.
  - rewrite He0. simpl.
    destruct (dict_get (bucket_key d p) e0) as [q|] eqn:Hq; simpl.
    + rewrite Hq. simpl. by destruct (dict_get _ parts).
    + rewrite dict_get_set, decide_True by done. simpl.
      rewrite dict_set_set. by destruct (dict_get _ parts).
  - rewrite dict_get_set, decide_True by done. simpl.
    rewrite decide_True by done. simpl. rewrite decide_True by done.
    rewrite dict_set_set. by destruct (dict_get _ parts).
Qed.

Lemma aggregate_loop_snoc p l b :
  loop p (l ++ [b]) = st ← loop p l; step p st b.
Proof. apply result_foldM_snoc. Qed.

(** Induction over the runs of the loop that succeed. *)
Lemma aggregate_loop_ind p (P : list Build.t → dict Z Part → Aggregate → Prop) :
  P [] [] [] →
  (∀ l b d parts hist,
     loop p l = Ok (parts, hist) →
     Build.completion_date b = Some d →
     P l parts hist →
     P (l ++ [b]) (step_parts parts b) (step_hist p d hist b)) →
  ∀ l parts hist, loop p l = Ok (parts, hist) → P l parts hist.
Proof.
  intros Hnil Hsnoc l. induction l as [|b l IH] using rev_ind; intros parts hist.
  - by intros [= <- <-].
  - rewrite aggregate_loop_snoc.
    destruct (loop p l) as [[parts0 hist0]|e] eqn:Hl; [|done].
    change (step p (parts0, hist0) b = Ok (parts, hist) → P (l ++ [b]) parts hist).
    rewrite aggregate_step_eq.
    destruct (Build.completion_date b) as [d|] eqn:Hd; [|done].
    intros [= <- <-]. eapply Hsnoc; eauto.
Qed.
(** **** Failure: only a missing timestamp makes the loop raise *)

Lemma aggregate_run_missing p (st : dict Z Part * Aggregate) l b :
  b ∈ l → Build.completion_date b = None →
  result_foldM (step p) st l = Err MissingTimestampError.
Proof.
  intros Hin Hnone. revert st.
  induction l as [|x l IH]; intros [parts hist]; [by apply elem_of_nil in Hin|].
  cbn [result_foldM]. rewrite aggregate_step_eq.
  apply elem_of_cons in Hin as [<-|Hin].
  - by rewrite Hnone.
  - destruct (Build.completion_date x); [|done]. by apply IH.
Qed.

Lemma aggregate_run_Ok p (st : dict Z Part * Aggregate) l :
  Forall (λ b, is_Some (Build.completion_date b)) l →
  ∃ st', result_foldM (step p) st l = Ok st'.
Proof.
  intros Hall. revert st.
  induction Hall as [|x l [d Hd] _ IH]; intros [parts hist]; [by eexists|].
  cbn [result_foldM]. rewrite aggregate_step_eq, Hd. apply IH.
Qed.

Lemma aggregate_loop_Err p l e :
  loop p l = Err e →
  e = MissingTimestampError ∧ ∃ b, b ∈ l ∧ Build.completion_date b = None.
Proof.
  intros Herr.
  destruct (decide (Forall (λ b, is_Some (Build.completion_date b)) l))
    as [Hall|Hex].
  - destruct (aggregate_run_Ok p ([], []) l Hall) as [st Hst].
    unfold aggregate_loop in Herr. congruence.
  - apply not_Forall_Exists in Hex; [|apply _].
    apply Exists_exists in Hex as (b & Hin & Hb).
    assert (Build.completion_date b = None) as Hnone.
    { simpl in Hb. destruct (Build.completion_date b); [|done].
      destruct Hb. by eexists. }
    pose proof (aggregate_run_missing p ([], []) l b Hin Hnone) as Hm.
    unfold aggregate_loop in Herr. split; [congruence|eauto].
Qed.

(** **** What one iteration does to the lookups *)

Lemma step_history_get p d hist b k :
  dict_get k (step_hist p d hist b)
  = if decide (k = pk (Build.part b))
    then Some (dict_set (bucket_key d p)
                 (dict_get_default (bucket_key d p) 0
                    (dict_get_default k [] hist) + Build.quantity b)
                 (dict_get_default k [] hist))
    else dict_get k hist.
Proof.
  unfold step_history. rewrite dict_get_set.
  by destruct (decide (k = pk (Build.part b))) as [->|?].
Qed.

Lemma aggregate_get_default k dk hist :
  dict_get dk (dict_get_default k [] hist) = aggregate_get k dk hist.
Proof.
  unfold aggregate_get, dict_get_default. by destruct (dict_get k hist).
Qed.

Lemma step_history_aggregate_get p d hist b k dk :
  aggregate_get k dk (step_hist p d hist b)
  = if decide (pk (Build.part b) = k ∧ bucket_key d p = dk)
    then Some (default 0 (aggregate_get k dk hist) + Build.quantity b)
    else aggregate_get k dk hist.
Proof.
  unfold aggregate_get at 1. rewrite step_history_get.
  destruct (decide (k = pk (Build.part b))) as [->|Hk]; simpl.
  - rewrite dict_get_set.
    destruct (decide (dk = bucket_key d p)) as [->|Hdk].
    + rewrite decide_True by done. unfold dict_get_default at 1.
      by rewrite aggregate_get_default.
    + rewrite decide_False by (intros [_ ?]; congruence).
      apply aggregate_get_default.
  - by rewrite decide_False by (intros [? _]; congruence).
Qed.

Lemma bucket_total_snoc p l b d k dk :
  Build.completion_date b = Some d →
  total p k dk (l ++ [b])
  = if decide (pk (Build.part b) = k ∧ bucket_key d p = dk)
    then Some (default 0 (total p k dk l) + Build.quantity b)
    else total p k dk l.
Proof.
  intros Hd. unfold bucket_total, records_in. rewrite filter_app.
  destruct (decide (pk (Build.part b) = k ∧ bucket_key d p = dk)) as [[Hk Hdk]|Hne].
  - rewrite filter_cons_True by (rewrite Hd; simpl; by subst).
    rewrite filter_nil.
    destruct (filter _ l) as [|x rs]; csimpl.
    + apply (f_equal Some). lia.
    + rewrite fmap_app, Zsum_app. apply (f_equal Some).
      change (Zsum (Build.quantity <$> [b])) with (Build.quantity b + 0). lia.
  - rewrite filter_cons_False
      by (rewrite Hd; simpl; intros [? ?]; apply Hne; split; congruence).
    by rewrite filter_nil, app_nil_r.
Qed.

(** **** Invariants of the loop *)

(** The aggregate holds, for each part and bucket, the sum of the matching
    records, and nothing where no record matches. *)
Lemma aggregate_loop_get p l parts hist :
  loop p l = Ok (parts, hist) →
  ∀ k dk, aggregate_get k dk hist = total p k dk l.
Proof.
  intros Hl k dk. revert l parts hist Hl.
  apply (aggregate_loop_ind p (λ l _ hist, aggregate_get k dk hist = total p k dk l)).
  - done.
  - intros l b d parts hist _ Hd IH.
    rewrite step_history_aggregate_get, (bucket_total_snoc _ _ _ d) by done.
    by rewrite IH.
Qed.

(** A part is a key of the aggregate exactly when it has a record. *)
Lemma aggregate_loop_present p l parts hist :
  loop p l = Ok (parts, hist) →
  ∀ k, is_Some (dict_get k hist) ↔ ∃ b, b ∈ l ∧ pk (Build.part b) = k.
Proof.
  intros Hl k. revert l parts hist Hl.
  apply (aggregate_loop_ind p (λ l _ hist,
    is_Some (dict_get k hist) ↔ ∃ b, b ∈ l ∧ pk (Build.part b) = k)).
  - split; [by intros [? ?]|]. intros (b & Hin & _). by apply elem_of_nil in Hin.
  - intros l b d parts hist _ _ IH. rewrite step_history_get.
    destruct (decide (k = pk (Build.part b))) as [->|Hk].
    + split; [|by eauto]. intros _. exists b. split; [|done].
      apply elem_of_app. right. by left.
    + rewrite IH. split; intros (b' & Hin & Hb').
      * exists b'. split; [|done]. apply elem_of_app. by left.
      * exists b'. split; [|done].
        apply elem_of_app in Hin as [?|Hin]; [done|].
        apply list_elem_of_singleton in Hin. congruence.
Qed.

(** [parts] and [history_items] have the same keys, in the same order. *)
Lemma aggregate_loop_keys p l parts hist :
  loop p l = Ok (parts, hist) → dict_keys parts = dict_keys hist.
Proof.
  revert l parts hist.
  apply (aggregate_loop_ind p (λ _ parts hist, dict_keys parts = dict_keys hist)).
  - done.
  - intros l b d parts hist _ _ IH. unfold step_parts, step_history.
    rewrite dict_keys_set.
    assert (dict_contains (pk (Build.part b)) parts
            = dict_contains (pk (Build.part b)) hist) as Hc.
    { apply eq_true_iff_eq. rewrite !dict_contains_true. by rewrite IH. }
    rewrite Hc. destruct (dict_contains _ hist); [done|].
    rewrite dict_keys_set, Hc. by rewrite IH.
Qed.

(** Each part is filed under its own primary key. *)
Lemma aggregate_loop_parts p l parts hist :
  loop p l = Ok (parts, hist) →
  ∀ k part, dict_get k parts = Some part → pk part = k.
Proof.
  revert l parts hist.
  apply (aggregate_loop_ind p (λ _ parts _,
    ∀ k part, dict_get k parts = Some part → pk part = k)).
  - done.
  - intros l b d parts hist _ _ IH k part. unfold step_parts.
    destruct (dict_contains _ parts); [apply IH|].
    rewrite dict_get_set. destruct (decide _) as [->|?]; [|apply IH].
    by intros [= <-].
Qed.

(** The dictionaries the loop builds have no repeated key. *)
Lemma aggregate_loop_wf p l parts hist :
  loop p l = Ok (parts, hist) →
  dict_wf hist ∧ ∀ k e, dict_get k hist = Some e → dict_wf e.
Proof.
  revert l parts hist.
  apply (aggregate_loop_ind p (λ _ _ hist,
    dict_wf hist ∧ ∀ k e, dict_get k hist = Some e → dict_wf e)).
  - split; [apply dict_wf_nil|done].
  - intros l b d parts hist _ _ [IH1 IH2]. split.
    + by apply dict_wf_set.
    + intros k e. rewrite step_history_get.
      destruct (decide _) as [->|?]; [|apply IH2].
      intros [= <-]. apply dict_wf_set. unfold dict_get_default.
      destruct (dict_get _ hist) eqn:Hg; [by eapply IH2|apply dict_wf_nil].
Qed.

(** The entries of a part add up to the quantities of its records. *)
Lemma aggregate_loop_Zsum p l parts hist :
  loop p l = Ok (parts, hist) →
  ∀ k, Zsum (dict_values (dict_get_default k [] hist))
       = Zsum (Build.quantity <$> records_of k l).
Proof.
  intros Hl k. revert l parts hist Hl.
  apply (aggregate_loop_ind p (λ l _ hist,
    Zsum (dict_values (dict_get_default k [] hist))
    = Zsum (Build.quantity <$> records_of k l))).
  - done.
  - intros l b d parts hist _ _ IH. unfold records_of in *.
    rewrite filter_app, fmap_app, Zsum_app, <-IH.
    unfold dict_get_default at 1. rewrite step_history_get.
    destruct (decide (k = pk (Build.part b))) as [->|Hk].
    + rewrite filter_cons_True, filter_nil by done.
      rewrite Zsum_dict_set. simpl. lia.
    + rewrite filter_cons_False, filter_nil by done. simpl.
      unfold dict_get_default. lia.
Qed.
End aggregate_facts.

(** ** The two output encodings *)

Section output_facts.
Variable gettext : string → string.

Implicit Types (self : HistoryView) (parts : dict Z Part) (hist : Aggregate).

Lemma response_items_lookup self parts hist resp i k e :
  response_items self parts hist = Ok resp →
  hist !! i = Some (k, e) →
  ∃ part, dict_get k parts = Some part
          ∧ resp !! i = Some {| part := part;
                                history := dense_history (date_range self) e |}.
Proof.
  unfold response_items, dict_items. intros Hm Hi.
  apply result_mapM_lookup in Hm as [_ Hm].
  destruct (Hm i _ Hi) as (item & Hitem & Hf). simpl in Hf.
  unfold dict_getitem in Hf.
  destruct (dict_get k parts) as [part|]; [|done]. simpl in Hf.
  injection Hf as <-. eauto.
Qed.

Lemma export_dataset_lookup self parts hist ds i k e :
  export_dataset gettext self parts hist = Ok ds →
  hist !! i = Some (k, e) →
  headers ds = export_headers gettext self
  ∧ ∃ part, dict_get k parts = Some part
            ∧ rows ds !! i = Some (export_row self k part e).
Proof.
  unfold export_dataset, export_rows, dict_items. intros Hm Hi.
  destruct (result_mapM _ hist) as [rs|] eqn:Hrs; [|done].
  simpl in Hm. injection Hm as <-. split; [done|]. simpl.
  apply result_mapM_lookup in Hrs as [_ Hrs].
  destruct (Hrs i _ Hi) as (row & Hrow & Hf). simpl in Hf.
  unfold dict_getitem in Hf.
  destruct (dict_get k parts) as [part|]; [|done]. simpl in Hf.
  injection Hf as <-. eauto.
Qed.

(** With a descriptor for every aggregated part, neither loop raises. *)
Lemma response_items_Ok self parts hist :
  (∀ k, k ∈ dict_keys hist → k ∈ dict_keys parts) →
  ∃ resp, response_items self parts hist = Ok resp.
Proof.
  intros Hcover. unfold response_items, dict_items.
  exists ((λ x, {| part := dict_get_default x.1 {| pk := 0; name := ""; IPN := "" |} parts;
                   history := dense_history (date_range self) x.2 |}) <$> hist).
  apply result_mapM_Ok. intros [k e] Hin. simpl.
  assert (is_Some (dict_get k parts)) as [part Hpart].
  { apply dict_get_is_Some, Hcover, list_elem_of_fmap. by exists (k, e). }
  unfold dict_getitem, dict_get_default. by rewrite Hpart.
Qed.

Lemma export_dataset_Ok self parts hist :
  (∀ k, k ∈ dict_keys hist → k ∈ dict_keys parts) →
  ∃ ds, export_dataset gettext self parts hist = Ok ds.
Proof.
  intros Hcover. unfold export_dataset, export_rows, dict_items.
  rewrite (result_mapM_Ok _
    (λ x, export_row self x.1
            (dict_get_default x.1 {| pk := 0; name := ""; IPN := "" |} parts) x.2)).
  - by eexists.
  - intros [k e] Hin. simpl.
    assert (is_Some (dict_get k parts)) as [part Hpart].
    { apply dict_get_is_Some, Hcover, list_elem_of_fmap. by exists (k, e). }
    unfold dict_getitem, dict_get_default. by rewrite Hpart.
Qed.

(** The column of a bucket key in the header and in a row. *)
Lemma export_headers_lookup self j B :
  date_range self !! j = Some B →
  export_headers gettext self !! (3 + j)%nat = Some (CStr B).
Proof.
  intros Hj. unfold export_headers.
  rewrite lookup_app_r by (simpl; lia). simpl.
  rewrite Nat.sub_0_r. by rewrite list_lookup_fmap, Hj.
Qed.

Lemma export_row_lookup self k part e j B :
  date_range self !! j = Some B →
  export_row self k part e !! (3 + j)%nat
  = Some (CInt (dict_get_default B 0 e)).
Proof.
  intros Hj. unfold export_row.
  rewrite lookup_app_r by (simpl; lia). simpl.
  rewrite Nat.sub_0_r. by rewrite !list_lookup_fmap, Hj.
Qed.

Lemma export_row_length self k part e :
  length (export_row self k part e) = length (export_headers gettext self).
Proof.
  unfold export_row, export_headers. rewrite !length_app, !length_fmap. done.
Qed.
End output_facts.

(** ** Permutations of the records *)

Section permutation_facts.
Variable bucket_key : Date → Period → string.

Lemma bucket_total_Permutation p k dk (l l' : list Build.t) :
  l ≡ₚ l' → bucket_total bucket_key p k dk l = bucket_total bucket_key p k dk l'.
Proof.
  intros Hperm. unfold bucket_total.
  assert (records_in bucket_key p k dk l ≡ₚ records_in bucket_key p k dk l')
    as Hrs by (unfold records_in; by rewrite Hperm).
  destruct (records_in bucket_key p k dk l) as [|x rs],
           (records_in bucket_key p k dk l') as [|x' rs'].
  - done.
  - by apply Permutation_nil_cons in Hrs.
  - symmetry in Hrs. by apply Permutation_nil_cons in Hrs.
  - f_equal. by apply Zsum_Permutation, fmap_Permutation.
Qed.

Lemma aggregate_map_Permutation p (l l' : list Build.t) parts hist parts' hist' :
  l ≡ₚ l' →
  aggregate_loop bucket_key p l = Ok (parts, hist) →
  aggregate_loop bucket_key p l' = Ok (parts', hist') →
  aggregate_map hist' = aggregate_map hist.
Proof.
  intros Hperm Hl Hl'. apply map_eq. intros k. unfold aggregate_map.
  rewrite !lookup_fmap, !dict_map_lookup.
  pose proof (aggregate_loop_present _ _ _ _ _ Hl k) as Hk.
  pose proof (aggregate_loop_present _ _ _ _ _ Hl' k) as Hk'.
  pose proof (aggregate_loop_get _ _ _ _ _ Hl k) as Hg.
  pose proof (aggregate_loop_get _ _ _ _ _ Hl' k) as Hg'.
  unfold aggregate_get in Hg, Hg'.
  assert (is_Some (dict_get k hist) ↔ is_Some (dict_get k hist')) as Hiff.
  { rewrite Hk, Hk'. by setoid_rewrite Hperm. }
  destruct (dict_get k hist) as [e|], (dict_get k hist') as [e'|]; simpl in *.
  - f_equal. apply map_eq. intros dk. rewrite !dict_map_lookup.
    rewrite Hg, Hg'. symmetry. by apply bucket_total_Permutation.
  - destruct Hiff as [Hiff _]. by destruct Hiff.
  - destruct Hiff as [_ Hiff]. by destruct Hiff.
  - done.
Qed.
End permutation_facts.

(** ** The store: what a call leaves untouched *)

Section store_facts.
(** The store at the time of the call. *)
Variable h0 : store.

Local Abbreviation keeps := (keeps h0).
Local Abbreviation created := (created h0).

Lemma keeps_ret {A} (a : A) (post : A → Prop) : post a → keeps (heap_ret a) post.
Proof. intros Ha h Hh. split; [done|]. by intros ? [= <-]. Qed.

Lemma keeps_raise {A} e (post : A → Prop) : keeps (heap_raise e) post.
Proof. intros h Hh. by split. Qed.

Lemma keeps_bind {A B} (m : Heap A) (f : A → Heap B) P Q :
  keeps m P → (∀ a, P a → keeps (f a) Q) → keeps (heap_bind m f) Q.
Proof.
  intros Hm Hf h Hh. unfold heap_bind.
  destruct (Hm h Hh) as [Hh' Hpost]. destruct (m h) as [[a|e] h']; simpl in *.
  - by apply Hf; [apply Hpost|].
  - by split.
Qed.

Lemma keeps_weaken {A} (m : Heap A) (P Q : A → Prop) :
  keeps m P → (∀ a, P a → Q a) → keeps m Q.
Proof. intros Hm HPQ h Hh. destruct (Hm h Hh). split; auto. Qed.

Lemma keeps_alloc o : keeps (alloc o) created.
Proof.
  intros h Hh. unfold alloc; simpl. split; [by apply prefix_app_r|].
  intros ? [= <-]. by apply prefix_length.
Qed.

Lemma keeps_load l : keeps (load l) (λ _, True).
Proof. intros h Hh. unfold load. destruct (h !! l); simpl; by split. Qed.

Lemma keeps_store_at l o : created l → keeps (store_at l o) (λ _, True).
Proof.
  intros Hl h [t ->]. unfold store_at; simpl. split; [|done].
  rewrite insert_app_r_alt by done. by eexists.
Qed.

Lemma keeps_for {A} (xs : list A) (body : A → Heap unit) :
  (∀ x, keeps (body x) (λ _, True)) → keeps (heap_for xs body) (λ _, True).
Proof.
  intros Hbody. induction xs as [|x xs IH]; simpl.
  - by apply keeps_ret.
  - eapply keeps_bind; [apply Hbody|]. by intros _ _.
Qed.
End store_facts.

(** One step of a proof that a computation keeps the store. *)
Ltac keeps_step :=
  lazymatch goal with
  | |- keeps _ (heap_bind _ _) _ => eapply keeps_bind; [|intros ? ?]
  | |- keeps _ (heap_ret _) _ => by apply keeps_ret
  | |- keeps _ (heap_raise _) _ => apply keeps_raise
  | |- keeps _ (alloc _) _ => apply keeps_alloc
  | |- keeps _ (load _) _ => apply keeps_load
  | |- keeps _ (store_at _ _) _ => by apply keeps_store_at
  | |- keeps _ (match ?x with _ => _ end) _ => destruct x
  | |- keeps _ (if ?x then _ else _) _ => destruct x
  end.

Section store_reads.
Variable h0 : store.

Local Abbreviation keeps := (keeps h0).
Local Abbreviation created := (created h0).
Local Abbreviation reads m := (keeps m (λ _, True)).

Lemma keeps_history_items_items l : reads (history_items_items l).
Proof. unfold history_items_items. repeat keeps_step. Qed.

Lemma keeps_load_entries l : reads (load_entries l).
Proof. unfold load_entries. repeat keeps_step. Qed.

Lemma keeps_entries_items l : reads (entries_items l).
Proof.
  unfold entries_items. keeps_step; [apply keeps_load_entries|keeps_step].
Qed.

Lemma keeps_entries_contains l k : reads (entries_contains l k).
Proof.
  unfold entries_contains. keeps_step; [apply keeps_load_entries|keeps_step].
Qed.

Lemma keeps_entries_get_default l k z : reads (entries_get_default l k z).
Proof.
  unfold entries_get_default. keeps_step; [apply keeps_load_entries|keeps_step].
Qed.

Lemma keeps_part_dict_getitem l k : reads (part_dict_getitem l k).
Proof. unfold part_dict_getitem. repeat keeps_step. Qed.

Lemma keeps_load_history l : reads (load_history l).
Proof. unfold load_history. repeat keeps_step. Qed.

Lemma keeps_load_dataset l : reads (load_dataset l).
Proof. unfold load_dataset. repeat keeps_step. Qed.

Lemma keeps_read_response_items xs : reads (read_response_items xs).
Proof.
  induction xs as [|[part l] xs IH]; simpl; [keeps_step|].
  keeps_step; [apply keeps_load_history|].
  keeps_step; [apply IH|keeps_step].
Qed.

Lemma keeps_read_response l : reads (read_response l).
Proof.
  unfold read_response. keeps_step; [keeps_step|].
  keeps_step; try keeps_step. apply keeps_read_response_items.
Qed.

Lemma keeps_read_quantities l keys : reads (read_quantities l keys).
Proof.
  induction keys as [|key keys IH]; simpl; [keeps_step|].
  keeps_step; [apply keeps_entries_get_default|].
  keeps_step; [apply IH|keeps_step].
Qed.

(** The updates: each changes an object the call created. *)
Lemma keeps_history_append l x : created l → reads (history_append l x).
Proof.
  intros Hl. unfold history_append.
  keeps_step; [apply keeps_load_history|keeps_step].
Qed.

Lemma keeps_history_sorted l : keeps (history_sorted l) created.
Proof.
  unfold history_sorted. keeps_step; [apply keeps_load_history|keeps_step].
Qed.

Lemma keeps_response_append l x : created l → reads (response_append l x).
Proof. intros Hl. unfold response_append. repeat keeps_step. Qed.

Lemma keeps_dataset_append l row : created l → reads (dataset_append l row).
Proof.
  intros Hl. unfold dataset_append.
  keeps_step; [apply keeps_load_dataset|keeps_step].
Qed.

Lemma keeps_export_row_store self pd ld item :
  created ld → reads (export_row_store self pd ld item).
Proof.
  intros Hld. destruct item as [part_id entries]. unfold export_row_store.
  keeps_step; [apply keeps_part_dict_getitem|].
  keeps_step; [apply keeps_read_quantities|].
  by apply keeps_dataset_append.
Qed.

Lemma keeps_export_data_store gettext tablib_export self pd hi :
  reads (export_data_store gettext tablib_export self pd hi).
Proof.
  unfold export_data_store.
  keeps_step; [keeps_step|].
  keeps_step; [apply keeps_history_items_items|].
  keeps_step.
  { apply keeps_for. intros item. by apply keeps_export_row_store. }
  keeps_step; [apply keeps_load_dataset|]. repeat keeps_step.
Qed.

Lemma keeps_zero_fill_store self l lh :
  created lh → reads (zero_fill_store self l lh).
Proof.
  intros Hlh. apply keeps_for. intros date_key.
  keeps_step; [apply keeps_entries_contains|].
  destruct (negb _); [by apply keeps_history_append|keeps_step].
Qed.

Lemma keeps_response_item_store self pd r item :
  created r → reads (response_item_store self pd r item).
Proof.
  intros Hr. destruct item as [part_id entries]. unfold response_item_store.
  keeps_step; [apply keeps_entries_items|].
  keeps_step; [keeps_step|].
  keeps_step; [by apply keeps_zero_fill_store|].
  keeps_step; [apply keeps_history_sorted|].
  keeps_step; [apply keeps_part_dict_getitem|].
  by apply keeps_response_append.
Qed.

Lemma keeps_format_response_store gettext tablib_export self pd hi :
  reads (format_response_store gettext tablib_export self pd hi).
Proof.
  unfold format_response_store.
  destruct (truthy _); [apply keeps_export_data_store|].
  keeps_step; [keeps_step|].
  keeps_step; [apply keeps_history_items_items|].
  keeps_step.
  { apply keeps_for. intros item. by apply keeps_response_item_store. }
  keeps_step; [apply keeps_read_response|keeps_step].
Qed.
End store_reads.

Lemma holds_aggregate_prefix h h' pd hi parts hist :
  holds_aggregate h pd hi parts hist → h `prefix_of` h' →
  holds_aggregate h' pd hi parts hist.
Proof.
  intros (Hpd & refs & Hhi & Hrefs) Hpre. split; [by eapply prefix_lookup_Some|].
  exists refs. split; [by eapply prefix_lookup_Some|].
  eapply Forall2_impl; [done|]. intros r x [? ?]. split; [done|].
  by eapply prefix_lookup_Some.
Qed.


(** ** The store: the call computes what the pure reading computes *)

Lemma heap_bind_Ok {A B} (m : Heap A) (f : A → Heap B) h a h' :
  m h = (Ok a, h') → heap_bind m f h = f a h'.
Proof. intros Hm. unfold heap_bind. by rewrite Hm. Qed.

Lemma heap_bind_Err {A B} (m : Heap A) (f : A → Heap B) h e h' :
  m h = (Err e, h') → heap_bind m f h = (Err e, h').
Proof. intros Hm. unfold heap_bind. by rewrite Hm. Qed.

Lemma load_Some h l o : h !! l = Some o → load l h = (Ok o, h).
Proof. intros Hl. unfold load. by rewrite Hl. Qed.

Lemma load_entries_eq h l e :
  h !! l = Some (OEntries e) → load_entries l h = (Ok e, h).
Proof. intros Hl. unfold load_entries. by rewrite (heap_bind_Ok _ _ _ _ _ (load_Some _ _ _ Hl)). Qed.

Lemma load_history_eq h l hs :
  h !! l = Some (OHistory hs) → load_history l h = (Ok hs, h).
Proof. intros Hl. unfold load_history. by rewrite (heap_bind_Ok _ _ _ _ _ (load_Some _ _ _ Hl)). Qed.

Lemma load_dataset_eq h l ds :
  h !! l = Some (ODataset ds) → load_dataset l h = (Ok ds, h).
Proof. intros Hl. unfold load_dataset. by rewrite (heap_bind_Ok _ _ _ _ _ (load_Some _ _ _ Hl)). Qed.

Lemma history_items_items_eq h l refs :
  h !! l = Some (OHistoryItems refs) → history_items_items l h = (Ok refs, h).
Proof.
  intros Hl. unfold history_items_items.
  by rewrite (heap_bind_Ok _ _ _ _ _ (load_Some _ _ _ Hl)).
Qed.

Lemma part_dict_getitem_eq h l parts k :
  h !! l = Some (OPartDict parts) →
  part_dict_getitem l k h = (dict_getitem k parts, h).
Proof.
  intros Hl. unfold part_dict_getitem, dict_getitem.
  rewrite (heap_bind_Ok _ _ _ _ _ (load_Some _ _ _ Hl)).
  by destruct (dict_get k parts).
Qed.

Lemma entries_contains_eq h l e k :
  h !! l = Some (OEntries e) →
  entries_contains l k h = (Ok (dict_contains k e), h).
Proof.
  intros Hl. unfold entries_contains.
  by rewrite (heap_bind_Ok _ _ _ _ _ (load_entries_eq _ _ _ Hl)).
Qed.

Lemma entries_items_eq h l e :
  h !! l = Some (OEntries e) → entries_items l h = (Ok e, h).
Proof.
  intros Hl. unfold entries_items.
  by rewrite (heap_bind_Ok _ _ _ _ _ (load_entries_eq _ _ _ Hl)).
Qed.

Lemma alloc_eq h o : alloc o h = (Ok (length h), h ++ [o]).
Proof. done. Qed.

Lemma store_at_eq h l o : store_at l o h = (Ok (), <[l := o]> h).
Proof. done. Qed.

Lemma heap_ret_eq {A} (a : A) h : heap_ret a h = (Ok a, h).
Proof. done. Qed.

Create HintDb heap discriminated.
#[local] Hint Resolve load_Some load_entries_eq load_history_eq load_dataset_eq
  history_items_items_eq part_dict_getitem_eq entries_contains_eq
  entries_items_eq alloc_eq store_at_eq heap_ret_eq : heap.

(** Run the first statement of a sequence whose outcome is known. *)
Ltac heap_step :=
  first
    [ erewrite heap_bind_Ok by (first [reflexivity | eauto with heap])
    | erewrite heap_bind_Err by (first [reflexivity | eauto with heap]) ].

Lemma entries_get_default_eq h l e k z :
  h !! l = Some (OEntries e) →
  entries_get_default l k z h = (Ok (dict_get_default k z e), h).
Proof. intros Hl. unfold entries_get_default. by heap_step. Qed.

Lemma read_quantities_eq h l e keys :
  h !! l = Some (OEntries e) →
  read_quantities l keys h
  = (Ok ((λ key, dict_get_default key 0 e) <$> keys), h).
Proof.
  intros Hl. induction keys as [|key keys IH]; simpl; [done|].
  rewrite (heap_bind_Ok _ _ _ _ _ (entries_get_default_eq _ _ _ key 0 Hl)).
  by rewrite (heap_bind_Ok _ _ _ _ _ IH).
Qed.

Lemma history_append_eq h l hs x :
  h !! l = Some (OHistory hs) →
  history_append l x h = (Ok (), <[l := OHistory (hs ++ [x])]> h).
Proof. intros Hl. unfold history_append. by heap_step. Qed.

Lemma history_sorted_eq h l hs :
  h !! l = Some (OHistory hs) →
  history_sorted l h = (Ok (length h), h ++ [OHistory (sorted date hs)]).
Proof. intros Hl. unfold history_sorted. by heap_step. Qed.

Lemma response_append_eq h l xs x :
  h !! l = Some (OResponse xs) →
  response_append l x h = (Ok (), <[l := OResponse (xs ++ [x])]> h).
Proof. intros Hl. unfold response_append. by heap_step. Qed.

Lemma dataset_append_eq h l ds row :
  h !! l = Some (ODataset ds) →
  dataset_append l row h
  = (Ok (), <[l := ODataset {| headers := headers ds;
                                rows := rows ds ++ [row] |}]> h).
Proof. intros Hl. unfold dataset_append. by heap_step. Qed.

(** The zero-fill loop appends to the history list, in place. *)
Lemma zero_fill_store_eq self l e lh :
  ∀ h hs,
    h !! l = Some (OEntries e) →
    h !! lh = Some (OHistory hs) →
    zero_fill_store self l lh h
    = (Ok (), <[lh := OHistory (zero_fill (date_range self) e hs)]> h).
Proof.
  unfold zero_fill_store.
  induction (date_range self) as [|k dr IH]; intros h hs Hl Hlh; simpl.
  - by rewrite list_insert_id.
  - assert (l ≠ lh) as Hne by (intros ->; congruence).
    pose proof (lookup_lt_Some _ _ _ Hlh) as Hlt.
    rewrite (heap_bind_Ok _ _ h ()
               (if negb (dict_contains k e)
                then <[lh := OHistory (hs ++ [{| date := k; quantity := 0 |}])]> h
                else h)).
    + destruct (dict_contains k e); simpl.
      * by apply IH.
      * rewrite (IH _ (hs ++ [{| date := k; quantity := 0 |}])).
        -- by rewrite list_insert_insert_eq.
        -- by rewrite list_lookup_insert_ne.
        -- by rewrite list_lookup_insert_eq.
    + rewrite (heap_bind_Ok _ _ _ _ _ (entries_contains_eq _ _ _ k Hl)).
      destruct (dict_contains k e); simpl; [done|]. by apply history_append_eq.
Qed.

(** One iteration of the loop of [format_response]: two lists are created,
    the unsorted and the sorted history, and the response list grows by one
    element, unless the part has no descriptor. *)
Lemma response_item_store_eq self pd r parts h xs k l e :
  h !! pd = Some (OPartDict parts) →
  h !! l = Some (OEntries e) →
  h !! r = Some (OResponse xs) →
  let unsorted :=
    zero_fill (date_range self) e
      ((λ '(date_key, quantity), {| date := date_key; quantity := quantity |})
         <$> e) in
  let h' := h ++ [OHistory unsorted; OHistory (dense_history (date_range self) e)] in
  response_item_store self pd r (k, l) h
  = match dict_get k parts with
    | Some p => (Ok (), <[r := OResponse (xs ++ [(p, S (length h))])]> h')
    | None => (Err KeyError, h')
    end.
Proof.
  intros Hpd Hl Hr unsorted h'. unfold response_item_store.
  rewrite (heap_bind_Ok _ _ _ _ _ (entries_items_eq _ _ _ Hl)).
  rewrite (heap_bind_Ok _ _ _ _ _ (alloc_eq _ _)).
  erewrite heap_bind_Ok; cycle 1.
  { apply (zero_fill_store_eq self l e (length h)).
    - by apply lookup_app_l_Some.
    - by rewrite list_lookup_middle. }
  rewrite insert_app_r_alt, Nat.sub_diag by done. simpl.
  erewrite heap_bind_Ok; cycle 1.
  { apply history_sorted_eq. by rewrite list_lookup_middle. }
  rewrite <-app_assoc. simpl. fold unsorted.
  change (sorted date unsorted) with (dense_history (date_range self) e).
  fold h'.
  assert (h' !! pd = Some (OPartDict parts)) as Hpd' by (by apply lookup_app_l_Some).
  assert (h' !! r = Some (OResponse xs)) as Hr' by (by apply lookup_app_l_Some).
  unfold dict_getitem.
  destruct (dict_get k parts) as [p|] eqn:Hk.
  - erewrite heap_bind_Ok; cycle 1.
    { rewrite (part_dict_getitem_eq _ _ _ k Hpd'). unfold dict_getitem. by rewrite Hk. }
    rewrite length_app. simpl. rewrite Nat.add_1_r.
    by apply response_append_eq.
  - erewrite heap_bind_Err; [done|].
    rewrite (part_dict_getitem_eq _ _ _ k Hpd'). unfold dict_getitem. by rewrite Hk.
Qed.

(** Two locations that hold objects of different kinds are different. *)
Ltac other_loc :=
  let H := fresh in intros H; rewrite H in *; congruence.

Lemma lookup_update_other (h t : store) r o i x :
  h !! i = Some x → i ≠ r → (<[r := o]> (h ++ t)) !! i = Some x.
Proof.
  intros Hi Hne. rewrite list_lookup_insert_ne by done. by apply lookup_app_l_Some.
Qed.

Lemma holds_response_read h xs items :
  holds_response h xs items → read_response_items xs h = (Ok items, h).
Proof.
  induction 1 as [|[p l] [p' hs] xs items [Hp Hl] _ IH]; simpl in *; [done|].
  subst p'. rewrite (heap_bind_Ok _ _ _ _ _ (load_history_eq _ _ _ Hl)).
  by rewrite (heap_bind_Ok _ _ _ _ _ IH).
Qed.

Lemma response_items_cons self parts k e (hist : Aggregate) :
  response_items self parts ((k, e) :: hist)
  = part ← dict_getitem k parts;
    ys ← response_items self parts hist;
    Ok ({| part := part; history := dense_history (date_range self) e |} :: ys).
Proof.
  unfold response_items, dict_items. cbn [result_mapM].
  by destruct (dict_getitem k parts).
Qed.

Lemma export_rows_cons self parts k e (hist : Aggregate) :
  export_rows self parts ((k, e) :: hist)
  = part ← dict_getitem k parts;
    ys ← export_rows self parts hist;
    Ok (export_row self k part e :: ys).
Proof.
  unfold export_rows, dict_items. cbn [result_mapM].
  by destruct (dict_getitem k parts).
Qed.

Section store_refinement.
Variable self : HistoryView.
Variable pd : loc.
Variable parts : dict Z Part.

(** The loop of [format_response], from any point of its run. *)
Lemma response_loop_eq r (refs : dict Z loc) (hist : Aggregate) :
  ∀ h xs items,
    Forall2 (λ rf x, rf.1 = x.1 ∧ h !! rf.2 = Some (OEntries x.2)) refs hist →
    h !! pd = Some (OPartDict parts) →
    h !! r = Some (OResponse xs) →
    holds_response h xs items →
    ∃ h',
      match response_items self parts hist with
      | Ok items' =>
          heap_for refs (response_item_store self pd r) h = (Ok (), h')
          ∧ ∃ xs', h' !! r = Some (OResponse xs')
                   ∧ holds_response h' xs' (items ++ items')
      | Err e => heap_for refs (response_item_store self pd r) h = (Err e, h')
      end.
Proof.
  revert hist. induction refs as [|[k l] refs IH]; intros hist h xs items Hrefs Hpd Hr Hxs.
  - apply Forall2_nil_inv_l in Hrefs as ->. exists h. simpl.
    split; [done|]. exists xs. by rewrite app_nil_r.
  - apply Forall2_cons_inv_l in Hrefs as ([k' e] & hist' & [Hk Hl] & Hrefs & ->).
    simpl in Hk, Hl. subst k'.
    rewrite response_items_cons.
    cbn [heap_for].
    pose proof (response_item_store_eq self pd r parts h xs k l e Hpd Hl Hr) as Hbody.
    cbv zeta in Hbody. unfold dict_getitem.
    destruct (dict_get k parts) as [p|]; cbn [mbind result_bind].
    + pose proof (lookup_lt_Some _ _ _ Hr) as Hlt.
      match type of Hbody with _ = (_, ?hh) => set (h4 := hh) in * end.
      edestruct (IH hist' h4 (xs ++ [(p, S (length h))])
                   (items ++ [{| part := p;
                                 history := dense_history (date_range self) e |}]))
        as [h' Hh'].
      * eapply Forall2_impl; [exact Hrefs|]. intros rf x [? Hx]. split; [done|].
        apply lookup_update_other; [done|]. other_loc.
      * apply lookup_update_other; [done|]. other_loc.
      * apply list_lookup_insert_eq. rewrite length_app. lia.
      * apply Forall2_app; subst h4.
        -- eapply Forall2_impl; [exact Hxs|]. intros x item [? Hx]. split; [done|].
           apply lookup_update_other; [done|]. other_loc.
        -- repeat constructor; simpl.
           rewrite list_lookup_insert_ne by lia.
           rewrite lookup_app_r by lia.
           by replace (S (length h) - length h)%nat with 1%nat by lia.
      * exists h'. rewrite (heap_bind_Ok _ _ _ _ _ Hbody).
        destruct (response_items self parts hist') as [ys|err]; cbn [mbind result_bind].
        -- by rewrite <-app_assoc in Hh'.
        -- done.
    + eexists. by rewrite (heap_bind_Err _ _ _ _ _ Hbody).
Qed.

(** One iteration of the loop of [export_data], and the loop. *)
Lemma export_row_store_eq ld h ds k l e :
  h !! pd = Some (OPartDict parts) →
  h !! l = Some (OEntries e) →
  h !! ld = Some (ODataset ds) →
  export_row_store self pd ld (k, l) h
  = match dict_get k parts with
    | Some p =>
        (Ok (), <[ld := ODataset {| headers := headers ds;
                                    rows := rows ds ++ [export_row self k p e] |}]> h)
    | None => (Err KeyError, h)
    end.
Proof.
  intros Hpd Hl Hld. unfold export_row_store.
  pose proof (part_dict_getitem_eq _ _ _ k Hpd) as Hget. unfold dict_getitem in Hget.
  destruct (dict_get k parts) as [p|].
  - rewrite (heap_bind_Ok _ _ _ _ _ Hget).
    rewrite (heap_bind_Ok _ _ _ _ _ (read_quantities_eq _ _ _ (date_range self) Hl)).
    by apply dataset_append_eq.
  - by rewrite (heap_bind_Err _ _ _ _ _ Hget).
Qed.

Lemma export_loop_eq ld (refs : dict Z loc) (hist : Aggregate) :
  ∀ h ds,
    Forall2 (λ rf x, rf.1 = x.1 ∧ h !! rf.2 = Some (OEntries x.2)) refs hist →
    h !! pd = Some (OPartDict parts) →
    h !! ld = Some (ODataset ds) →
    ∃ h',
      match export_rows self parts hist with
      | Ok rows' =>
          heap_for refs (export_row_store self pd ld) h = (Ok (), h')
          ∧ h' !! ld = Some (ODataset {| headers := headers ds;
                                         rows := rows ds ++ rows' |})
      | Err e => heap_for refs (export_row_store self pd ld) h = (Err e, h')
      end.
Proof.
  revert hist. induction refs as [|[k l] refs IH]; intros hist h ds Hrefs Hpd Hld.
  - apply Forall2_nil_inv_l in Hrefs as ->. exists h. simpl.
    split; [done|]. rewrite app_nil_r. by destruct ds.
  - apply Forall2_cons_inv_l in Hrefs as ([k' e] & hist' & [Hk Hl] & Hrefs & ->).
    simpl in Hk, Hl. subst k'.
    rewrite export_rows_cons.
    cbn [heap_for].
    pose proof (export_row_store_eq ld h ds k l e Hpd Hl Hld) as Hbody.
    unfold dict_getitem.
    destruct (dict_get k parts) as [p|]; cbn [mbind result_bind].
    + pose proof (lookup_lt_Some _ _ _ Hld) as Hlt.
      match type of Hbody with _ = (_, ?hh) => set (h4 := hh) in * end.
      edestruct (IH hist' h4) as [h' Hh'].
      * eapply Forall2_impl; [exact Hrefs|]. intros rf x [? Hx]. split; [done|].
        subst h4. rewrite list_lookup_insert_ne; [done|]. other_loc.
      * subst h4. rewrite list_lookup_insert_ne; [done|]. other_loc.
      * by apply list_lookup_insert_eq.
      * exists h'. rewrite (heap_bind_Ok _ _ _ _ _ Hbody).
        destruct (export_rows self parts hist') as [ys|err]; cbn [mbind result_bind].
        -- simpl in Hh'. by rewrite <-app_assoc in Hh'.
        -- done.
    + eexists. by rewrite (heap_bind_Err _ _ _ _ _ Hbody).
Qed.
End store_refinement.

(** Run over a store that holds the two dictionaries, [format_response]
    returns what it returns on the dictionaries themselves. *)
Lemma format_response_store_eq gettext tablib_export self pd hi h parts hist :
  holds_aggregate h pd hi parts hist →
  (format_response_store gettext tablib_export self pd hi h).1
  = format_response gettext tablib_export self parts hist.
Proof.
  intros (Hpd & refs & Hhi & Hrefs).
  unfold format_response_store, format_response.
  destruct (truthy (export_format self)).
  - unfold export_data_store, export_data, export_dataset.
    rewrite (heap_bind_Ok _ _ _ _ _ (alloc_eq _ _)).
    erewrite heap_bind_Ok; cycle 1.
    { apply history_items_items_eq. by apply lookup_app_l_Some. }
    edestruct (export_loop_eq self pd parts (length h) refs hist
                 (h ++ [ODataset {| headers := export_headers gettext self;
                                    rows := [] |}])
                 {| headers := export_headers gettext self; rows := [] |})
      as [h' Hh'].
    + eapply Forall2_impl; [exact Hrefs|]. intros rf x [? Hx]. split; [done|].
      by apply lookup_app_l_Some.
    + by apply lookup_app_l_Some.
    + by rewrite list_lookup_middle.
    + destruct (export_rows self parts hist) as [rs|err]; cbn [mbind result_bind].
      * destruct Hh' as [Hloop Hld]. rewrite (heap_bind_Ok _ _ _ _ _ Hloop).
        rewrite (heap_bind_Ok _ _ _ _ _ (load_dataset_eq _ _ _ Hld)). simpl.
        by destruct (tablib_export _ _).
      * by rewrite (heap_bind_Err _ _ _ _ _ Hh').
  - rewrite (heap_bind_Ok _ _ _ _ _ (alloc_eq _ _)).
    erewrite heap_bind_Ok; cycle 1.
    { apply history_items_items_eq. by apply lookup_app_l_Some. }
    edestruct (response_loop_eq self pd parts (length h) refs hist
                 (h ++ [OResponse []]) [] [])
      as [h' Hh'].
    + eapply Forall2_impl; [exact Hrefs|]. intros rf x [? Hx]. split; [done|].
      by apply lookup_app_l_Some.
    + by apply lookup_app_l_Some.
    + by rewrite list_lookup_middle.
    + constructor.
    + destruct (response_items self parts hist) as [items|err]; cbn [mbind result_bind].
      * destruct Hh' as (Hloop & xs & Hr & Hxs). rewrite (heap_bind_Ok _ _ _ _ _ Hloop).
        erewrite heap_bind_Ok; [done|]. unfold read_response.
        rewrite (heap_bind_Ok _ _ _ _ _ (load_Some _ _ _ Hr)).
        by apply holds_response_read.
      * by rewrite (heap_bind_Err _ _ _ _ _ Hh').
Qed.
(** ** The build generator *)

Section generator_facts.
Variable bucket_key : Date → Period → string.
Variable COMPLETE : list Z.
Variable get_descendants : Part → list Z.
Variable gettext : string → string.
Variable tablib_export : Dataset → option string → option string.

(** The queryset excludes the builds without a completion date: every record
    the loop sees has a timestamp, inside the requested range. *)
Lemma builds_queryset_dated self (db : list Build.t) :
  Forall (λ b, is_Some (Build.completion_date b)
               ∧ in_date_range self (Build.completion_date b) = true)
         (builds_queryset COMPLETE get_descendants self db).
Proof.
  apply Forall_forall. intros b Hb. unfold builds_queryset in Hb.
  apply list_elem_of_filter in Hb as [Hrange _]. split; [|done].
  destruct (Build.completion_date b); [by eexists|done].
Qed.

(** Hence the generator always gets through the loop and into
    [format_response], where no descriptor is missing. *)
Lemma generate_build_order_history_runs self (db : list Build.t) :
  ∃ parts hist,
    aggregate_loop bucket_key (period self)
      (builds_queryset COMPLETE get_descendants self db) = Ok (parts, hist)
    ∧ dict_keys parts = dict_keys hist
    ∧ generate_build_order_history bucket_key COMPLETE get_descendants gettext
        tablib_export self db
      = ([QueryBuilds], format_response gettext tablib_export self parts hist).
Proof.
  destruct (aggregate_run_Ok bucket_key (period self) ([], [])
              (builds_queryset COMPLETE get_descendants self db))
    as [[parts hist] Hloop].
  { eapply Forall_impl; [apply builds_queryset_dated|]. by intros b [? _]. }
  exists parts, hist. split_and!; [done|by eapply aggregate_loop_keys|].
  unfold generate_build_order_history, aggregate_loop. by rewrite Hloop.
Qed.
End generator_facts.

(** ** [get] and its date-range helper *)

(** [get] with the helper of the specification is the check of that helper
    followed by the lines of [views.py]: the only failure [get] has on its own
    path comes from the helper, and on a well-formed range the two agree. *)
Lemma get_get_with_helper
    bucket_key bucket_sequence COMPLETE get_descendants gettext tablib_export
    data db :
  get bucket_key bucket_sequence COMPLETE get_descendants gettext tablib_export
      data db
  = if date_ltb (Data.end_date data) (Data.start_date data)
    then ([], Err InvalidRangeError)
    else get_with_helper bucket_key bucket_sequence COMPLETE get_descendants
           gettext tablib_export data db.
Proof.
  unfold get, get_with_helper, construct_date_range.
  by destruct (date_ltb _ _).
Qed.

(** * The properties of the specification *)

(** C1. Density. For a part present in the aggregate whose sparse bucket
    keys all belong to the canonical bucket sequence [date_range] (a
    duplicate-free sequence), the history list built by the structured path
    of [format_response] has one entry per key of the sequence, as many
    entries as the sequence has keys, and its entries ascend by bucket key;
    when the sequence itself ascends, the keys of the history are the
    sequence, in the same order. *)
Theorem history_is_dense gettext tablib_export self parts hist i part_id entries :
  truthy (export_format self) = false →
  dict_keys hist ⊆ dict_keys parts →
  hist !! i = Some (part_id, entries) →
  dict_wf entries →
  NoDup (date_range self) →
  dict_keys entries ⊆ date_range self →
  ∃ resp item,
    format_response gettext tablib_export self parts hist = Ok (Response resp)
    ∧ resp !! i = Some item
    ∧ date <$> history item ≡ₚ date_range self
    ∧ length (history item) = length (date_range self)
    ∧ ascending (date <$> history item)
    ∧ (ascending (date_range self) → date <$> history item = date_range self).
Proof.
  intros Hexp Hcover Hi Hwf Hnd Hin.
  destruct (response_items_Ok self parts hist Hcover) as [resp Hresp].
  destruct (response_items_lookup _ _ _ _ _ _ _ Hresp Hi) as (part & _ & Hitem).
  exists resp, {| part := part; history := dense_history (date_range self) entries |}.
  pose proof (dense_history_dates (date_range self) entries Hwf Hnd Hin) as Hperm.
  pose proof (dense_history_ascending (date_range self) entries) as Hasc.
  unfold format_response. rewrite Hexp, Hresp. simpl.
  split_and!; try done.
  - rewrite <-(length_fmap date), Hperm. done.
  - intros Hdr. by apply ascending_unique.
Qed.

(** C2. Export against structured response. For an aggregate with a
    descriptor for each of its parts, every part E in it and every bucket key
    B of [date_range]: the quantity the structured history pairs with B and
    the cell of E's export row in the column headed B are both the sparse
    map's quantity for B, or zero when B is absent from the sparse map. *)
Theorem export_matches_response gettext self parts hist i part_id entries j B :
  dict_keys hist ⊆ dict_keys parts →
  hist !! i = Some (part_id, entries) →
  dict_wf entries →
  date_range self !! j = Some B →
  ∃ resp ds item row,
    response_items self parts hist = Ok resp
    ∧ export_dataset gettext self parts hist = Ok ds
    ∧ resp !! i = Some item
    ∧ rows ds !! i = Some row
    ∧ headers ds !! (3 + j)%nat = Some (CStr B)
    ∧ row !! (3 + j)%nat = Some (CInt (dict_get_default B 0 entries))
    ∧ {| date := B; quantity := dict_get_default B 0 entries |} ∈ history item
    ∧ ∀ x, x ∈ history item → date x = B →
           quantity x = dict_get_default B 0 entries.
Proof.
  intros Hcover Hi Hwf Hj.
  destruct (response_items_Ok self parts hist Hcover) as [resp Hresp].
  destruct (export_dataset_Ok gettext self parts hist Hcover) as [ds Hds].
  destruct (response_items_lookup _ _ _ _ _ _ _ Hresp Hi) as (part & _ & Hitem).
  destruct (export_dataset_lookup _ _ _ _ _ _ _ _ Hds Hi) as (Hhd & part' & _ & Hrow).
  assert (B ∈ date_range self) as HB by (by eapply list_elem_of_lookup_2).
  destruct (dense_history_quantity (date_range self) entries B Hwf HB) as [Hin Huniq].
  eexists resp, ds, _, _. split_and!; try done.
  - rewrite Hhd. by apply export_headers_lookup.
  - by apply export_row_lookup.
Qed.

(** C3. Permutation invariance. Running the aggregation loop on a
    permutation of a list of records gives the same outcome: the same
    failure, or an aggregate that denotes the same mapping from part id to
    bucket key to accumulated quantity. *)
Theorem aggregate_permutation_invariant bucket_key p (builds builds' : list Build.t) :
  builds ≡ₚ builds' →
  (aggregate_map ∘ snd) <$> aggregate_loop bucket_key p builds'
  = (aggregate_map ∘ snd) <$> aggregate_loop bucket_key p builds.
Proof.
  intros Hperm.
  destruct (aggregate_loop bucket_key p builds) as [[parts hist]|e] eqn:Hl,
           (aggregate_loop bucket_key p builds') as [[parts' hist']|e'] eqn:Hl';
    simpl.
  - f_equal. by eapply aggregate_map_Permutation.
  - apply aggregate_loop_Err in Hl' as (_ & b & Hin & Hnone).
    rewrite <-Hperm in Hin.
    pose proof (aggregate_run_missing bucket_key p ([], []) _ _ Hin Hnone) as Hm.
    unfold aggregate_loop in Hl. congruence.
  - apply aggregate_loop_Err in Hl as (_ & b & Hin & Hnone).
    rewrite Hperm in Hin.
    pose proof (aggregate_run_missing bucket_key p ([], []) _ _ Hin Hnone) as Hm.
    unfold aggregate_loop in Hl'. congruence.
  - apply aggregate_loop_Err in Hl as [-> _].
    by apply aggregate_loop_Err in Hl' as [-> _].
Qed.

(** C4. Zero-fill correctness. For a part present in the aggregate the loop
    built from the records of the requested range, the quantities of its
    dense history add up to the quantities of its records; every sparse
    entry is in the history, and every other entry of the history has
    quantity zero. *)
Theorem history_sum_is_record_sum bucket_key self builds parts hist i part_id entries :
  aggregate_loop bucket_key (period self) builds = Ok (parts, hist) →
  hist !! i = Some (part_id, entries) →
  ∃ resp item,
    response_items self parts hist = Ok resp
    ∧ resp !! i = Some item
    ∧ pk (part item) = part_id
    ∧ Zsum (quantity <$> history item)
      = Zsum (Build.quantity <$> records_of part_id builds)
    ∧ (∀ k q, (k, q) ∈ entries → {| date := k; quantity := q |} ∈ history item)
    ∧ (∀ x, x ∈ history item →
            (date x, quantity x) ∈ entries ∨ quantity x = 0).
Proof.
  intros Hl Hi.
  destruct (aggregate_loop_wf _ _ _ _ _ Hl) as [Hwf _].
  assert (dict_get part_id hist = Some entries) as Hget.
  { apply dict_wf_elem_of_get; [done|]. by eapply list_elem_of_lookup_2. }
  destruct (response_items_Ok self parts hist) as [resp Hresp].
  { by rewrite (aggregate_loop_keys _ _ _ _ _ Hl). }
  destruct (response_items_lookup _ _ _ _ _ _ _ Hresp Hi) as (part & Hpart & Hitem).
  eexists resp, _. split_and!; try done; simpl.
  - by eapply aggregate_loop_parts.
  - rewrite dense_history_Zsum.
    rewrite <-(aggregate_loop_Zsum _ _ _ _ _ Hl part_id).
    unfold dict_get_default. by rewrite Hget.
  - intros k q Hin. apply dense_history_elem_of. by left.
  - intros x [?|(? & _)]%dense_history_elem_of; [by left|by right].
Qed.

(** C5. An unrecognized order type gives the empty structured response.
    For every request whose order type is absent or not one of 'build',
    'purchase', 'sales', 'return', [get] returns [Response([])] and raises
    nothing: no generator runs and the table is not read, whatever the two
    dates, the period, the part, the export parameter, the stored records
    and the list the date-range helper returns. *)
Theorem unrecognized_order_type_is_lenient
    bucket_key date_range_of COMPLETE get_descendants gettext tablib_export
    data db :
  (∀ ot, Data.order_type data = Some ot → ot ∉ recognized_order_types) →
  get_with_helper bucket_key date_range_of COMPLETE get_descendants gettext
      tablib_export data db
  = ([], Ok (Response [])).
Proof.
  intros Hot. unfold get_with_helper. simpl.
  destruct (Data.order_type data) as [ot|]; [|done].
  specialize (Hot ot eq_refl). unfold recognized_order_types in Hot.
  rewrite !not_elem_of_cons in Hot. destruct Hot as (? & ? & ? & ? & _).
  unfold generators. simpl. by rewrite !decide_False by done.
Qed.

(** C6. An inverted range is rejected first. For every request with
    start_date > end_date, [get] fails with [InvalidRangeError] and its trace
    of reads is empty: no record is read or accumulated, whatever the order
    type and the stored records. *)
Theorem inverted_range_fails_before_aggregation
    bucket_key bucket_sequence COMPLETE get_descendants gettext tablib_export
    data db :
  date_ltb (Data.end_date data) (Data.start_date data) = true →
  get bucket_key bucket_sequence COMPLETE get_descendants gettext tablib_export
      data db
  = ([], Err InvalidRangeError).
Proof. intros Hlt. unfold get, construct_date_range. by rewrite Hlt. Qed.

(** C7. Missing timestamp. A record without a completion timestamp makes
    the accumulation step fail with [MissingTimestampError], whatever has
    been accumulated so far, and makes the whole loop fail with it wherever
    the record stands in the list. *)
Theorem missing_timestamp_fails bucket_key p (builds : list Build.t) b :
  b ∈ builds →
  Build.completion_date b = None →
  (∀ st, aggregate_step bucket_key p st b = Err MissingTimestampError)
  ∧ aggregate_loop bucket_key p builds = Err MissingTimestampError.
Proof.
  intros Hin Hnone. split.
  - intros [parts hist]. by rewrite aggregate_step_eq, Hnone.
  - by eapply aggregate_run_missing.
Qed.

(** C8. No mutation of the input. Run over a store that holds [part_dict]
    and [history_items], [format_response] returns what it returns on the
    dictionaries themselves, and the store after the call is the store before
    it followed by the objects the call created: every object that existed
    before the call is unchanged, on the structured path, on the export path
    and when a lookup raises. In particular [history_items], the entries
    dictionary of every part and [part_dict] still hold the same aggregate,
    and a second call on them, for an export say, sees that aggregate. *)
Theorem format_response_keeps_aggregate gettext tablib_export self pd hi h parts hist :
  holds_aggregate h pd hi parts hist →
  let run := format_response_store gettext tablib_export self pd hi h in
  run.1 = format_response gettext tablib_export self parts hist
  ∧ h `prefix_of` run.2
  ∧ (∀ l o, h !! l = Some o → run.2 !! l = Some o)
  ∧ holds_aggregate run.2 pd hi parts hist
  ∧ ∀ self',
      (format_response_store gettext tablib_export self' pd hi run.2).1
      = format_response gettext tablib_export self' parts hist.
Proof.
  intros Hholds run.
  assert (h `prefix_of` run.2) as Hpre.
  { by apply (keeps_format_response_store h gettext tablib_export self pd hi h). }
  assert (holds_aggregate run.2 pd hi parts hist) as Hholds'
    by (by eapply holds_aggregate_prefix).
  split_and!; [by apply format_response_store_eq|done| |done|].
  - intros l o Hl. by eapply prefix_lookup_Some.
  - intros self'. by apply format_response_store_eq.
Qed.

(** C9. Descriptors are never missing. After the aggregation loop the keys
    of [history_items] are the keys of [parts]; hence every
    [part_dict[part_id]] lookup of the two output paths finds its part, and
    neither [format_response] nor [export_data] raises [KeyError]. *)
Theorem descriptors_never_missing bucket_key gettext tablib_export self p
    (builds : list Build.t) parts hist :
  aggregate_loop bucket_key p builds = Ok (parts, hist) →
  dict_keys hist = dict_keys parts
  ∧ (∀ part_id, part_id ∈ dict_keys hist →
       ∃ part, dict_getitem part_id parts = Ok part)
  ∧ (∃ resp, response_items self parts hist = Ok resp)
  ∧ (∃ ds, export_dataset gettext self parts hist = Ok ds)
  ∧ format_response gettext tablib_export self parts hist ≠ Err KeyError
  ∧ export_data gettext tablib_export self parts hist ≠ Err KeyError.
Proof.
  intros Hl. pose proof (aggregate_loop_keys _ _ _ _ _ Hl) as Hkeys.
  assert (dict_keys hist ⊆ dict_keys parts) as Hcover by (by rewrite Hkeys).
  destruct (response_items_Ok self parts hist Hcover) as [resp Hresp].
  destruct (export_dataset_Ok gettext self parts hist Hcover) as [ds Hds].
  assert (export_data gettext tablib_export self parts hist ≠ Err KeyError) as Hexp.
  { unfold export_data. rewrite Hds. simpl. by destruct (tablib_export _ _). }
  split_and!; eauto.
  - intros k Hk. rewrite <-Hkeys in Hk. apply dict_get_is_Some in Hk as [part Hk].
    exists part. unfold dict_getitem. by rewrite Hk.
  - unfold format_response. destruct (truthy _); [done|]. by rewrite Hresp.
Qed.

(** C10. The order types 'purchase', 'sales' and 'return' are inert. For
    every request with one of these order types, [get] returns a plain empty
    list, not wrapped in a response, and reads no record: the result is the
    same whatever the stored records, the two dates and the date range built
    from them, the period and the export parameter, so that no aggregation,
    formatting or export takes place. *)
Theorem stub_generators_return_plain_list
    bucket_key date_range_of COMPLETE get_descendants gettext tablib_export
    data db ot :
  Data.order_type data = Some ot →
  ot ∈ ["purchase"; "sales"; "return"] →
  get_with_helper bucket_key date_range_of COMPLETE get_descendants gettext
      tablib_export data db
  = ([], Ok (PlainList [])).
Proof.
  intros Hot Hin. unfold get_with_helper. simpl. rewrite Hot.
  rewrite !elem_of_cons in Hin.
  destruct Hin as [-> | [-> | [-> | Hin]]]; [done..|]. by apply elem_of_nil in Hin.
Qed.

(** * The properties on the scenario of the specification *)

Lemma history_is_dense_scenario :
  let self := Scenario.self None in
  let entries := [("2024-01", 5); ("2024-02", 3)] in
  truthy (export_format self) = false
  ∧ dict_keys Scenario.history_items ⊆ dict_keys Scenario.parts
  ∧ Scenario.history_items !! 0%nat = Some (1, entries)
  ∧ dict_wf entries
  ∧ NoDup (date_range self)
  ∧ dict_keys entries ⊆ date_range self
  ∧ ∃ resp item,
      format_response Scenario.gettext Scenario.tablib_export self
        Scenario.parts Scenario.history_items = Ok (Response resp)
      ∧ resp !! 0%nat = Some item
      ∧ date <$> history item ≡ₚ date_range self
      ∧ length (history item) = length (date_range self)
      ∧ ascending (date <$> history item)
      ∧ (ascending (date_range self) → date <$> history item = date_range self).
Proof.
  intros self entries.
  assert (truthy (export_format self) = false) as H0 by reflexivity.
  assert (dict_keys Scenario.history_items ⊆ dict_keys Scenario.parts) as H1
    by (apply (bool_decide_unpack _); vm_compute; exact I).
  assert (Scenario.history_items !! 0%nat = Some (1, entries)) as H2
    by reflexivity.
  assert (dict_wf entries) as H3
    by (apply (bool_decide_unpack _); vm_compute; exact I).
  assert (NoDup (date_range self)) as H4
    by (apply (bool_decide_unpack _); vm_compute; exact I).
  assert (dict_keys entries ⊆ date_range self) as H5
    by (apply (bool_decide_unpack _); vm_compute; exact I).
  exact (conj H0 (conj H1 (conj H2 (conj H3 (conj H4 (conj H5
    (history_is_dense Scenario.gettext Scenario.tablib_export self
       Scenario.parts Scenario.history_items 0%nat 1 entries
       H0 H1 H2 H3 H4 H5))))))).
Defined.

Lemma export_matches_response_scenario :
  let self := Scenario.self None in
  let entries := [("2024-01", 5); ("2024-02", 3)] in
  dict_keys Scenario.history_items ⊆ dict_keys Scenario.parts
  ∧ Scenario.history_items !! 0%nat = Some (1, entries)
  ∧ dict_wf entries
  ∧ date_range self !! 2%nat = Some "2024-03"
  ∧ ∃ resp ds item row,
      response_items self Scenario.parts Scenario.history_items = Ok resp
      ∧ export_dataset Scenario.gettext self Scenario.parts
          Scenario.history_items = Ok ds
      ∧ resp !! 0%nat = Some item
      ∧ rows ds !! 0%nat = Some row
      ∧ headers ds !! (3 + 2)%nat = Some (CStr "2024-03")
      ∧ row !! (3 + 2)%nat = Some (CInt (dict_get_default "2024-03" 0 entries))
      ∧ {| date := "2024-03";
           quantity := dict_get_default "2024-03" 0 entries |} ∈ history item
      ∧ ∀ x, x ∈ history item → date x = "2024-03" →
             quantity x = dict_get_default "2024-03" 0 entries.
Proof.
  intros self entries.
  assert (dict_keys Scenario.history_items ⊆ dict_keys Scenario.parts) as H1
    by (apply (bool_decide_unpack _); vm_compute; exact I).
  assert (Scenario.history_items !! 0%nat = Some (1, entries)) as H2
    by reflexivity.
  assert (dict_wf entries) as H3
    by (apply (bool_decide_unpack _); vm_compute; exact I).
  assert (date_range self !! 2%nat = Some "2024-03") as H4 by reflexivity.
  exact (conj H1 (conj H2 (conj H3 (conj H4
    (export_matches_response Scenario.gettext self Scenario.parts
       Scenario.history_items 0%nat 1 entries 2%nat "2024-03"
       H1 H2 H3 H4))))).
Defined.

Lemma aggregate_permutation_invariant_scenario :
  Scenario.builds ≡ₚ Scenario.shuffled
  ∧ (aggregate_map ∘ snd) <$> Scenario.aggregate_loop Month Scenario.shuffled
    = (aggregate_map ∘ snd) <$> Scenario.aggregate_loop Month Scenario.builds.
Proof.
  assert (Scenario.builds ≡ₚ Scenario.shuffled) as H by apply Permutation_swap.
  exact (conj H
    (aggregate_permutation_invariant Scenario.month_key Month
       Scenario.builds Scenario.shuffled H)).
Defined.

Lemma history_sum_is_record_sum_scenario :
  let self := Scenario.self None in
  let entries := [("2024-01", 5); ("2024-02", 3)] in
  Scenario.aggregate_loop (period self) Scenario.builds
  = Ok (Scenario.parts, Scenario.history_items)
  ∧ Scenario.history_items !! 0%nat = Some (1, entries)
  ∧ ∃ resp item,
      response_items self Scenario.parts Scenario.history_items = Ok resp
      ∧ resp !! 0%nat = Some item
      ∧ pk (part item) = 1
      ∧ Zsum (quantity <$> history item)
        = Zsum (Build.quantity <$> records_of 1 Scenario.builds)
      ∧ (∀ k q, (k, q) ∈ entries → {| date := k; quantity := q |} ∈ history item)
      ∧ (∀ x, x ∈ history item →
              (date x, quantity x) ∈ entries ∨ quantity x = 0).
Proof.
  intros self entries.
  assert (Scenario.aggregate_loop (period self) Scenario.builds
          = Ok (Scenario.parts, Scenario.history_items)) as H1
    by (vm_compute; reflexivity).
  assert (Scenario.history_items !! 0%nat = Some (1, entries)) as H2
    by reflexivity.
  exact (conj H1 (conj H2
    (history_sum_is_record_sum Scenario.month_key self Scenario.builds
       Scenario.parts Scenario.history_items 0%nat 1 entries H1 H2))).
Defined.

Lemma missing_timestamp_fails_scenario :
  let builds := Scenario.builds ++ [Scenario.undated] in
  Scenario.undated ∈ builds
  ∧ Build.completion_date Scenario.undated = None
  ∧ (∀ st, aggregate_step Scenario.month_key Month st Scenario.undated
           = Err MissingTimestampError)
  ∧ aggregate_loop Scenario.month_key Month builds = Err MissingTimestampError.
Proof.
  intros builds.
  assert (Scenario.undated ∈ builds) as H1
    by (apply (bool_decide_unpack _); vm_compute; exact I).
  assert (Build.completion_date Scenario.undated = None) as H2 by reflexivity.
  exact (conj H1 (conj H2
    (missing_timestamp_fails Scenario.month_key Month builds Scenario.undated
       H1 H2))).
Defined.

Lemma format_response_keeps_aggregate_scenario :
  let h := Scenario.store0 in
  let run := format_response_store Scenario.gettext Scenario.tablib_export
               (Scenario.self None) 0%nat 1%nat h in
  holds_aggregate h 0%nat 1%nat Scenario.parts Scenario.history_items
  ∧ run.1 = format_response Scenario.gettext Scenario.tablib_export
              (Scenario.self None) Scenario.parts Scenario.history_items
  ∧ h `prefix_of` run.2
  ∧ (∀ l o, h !! l = Some o → run.2 !! l = Some o)
  ∧ holds_aggregate run.2 0%nat 1%nat Scenario.parts Scenario.history_items
  ∧ ∀ self',
      (format_response_store Scenario.gettext Scenario.tablib_export self'
         0%nat 1%nat run.2).1
      = format_response Scenario.gettext Scenario.tablib_export self'
          Scenario.parts Scenario.history_items.
Proof.
  intros h run.
  assert (holds_aggregate h 0%nat 1%nat Scenario.parts Scenario.history_items)
    as H.
  { split; [reflexivity|]. exists [(1, 2%nat); (2, 3%nat)].
    split; [reflexivity|]. repeat constructor. }
  exact (conj H
    (format_response_keeps_aggregate Scenario.gettext Scenario.tablib_export
       (Scenario.self None) 0%nat 1%nat h Scenario.parts Scenario.history_items
       H)).
Defined.

Lemma descriptors_never_missing_scenario :
  let self := Scenario.self (Some "csv") in
  Scenario.aggregate_loop Month Scenario.builds
  = Ok (Scenario.parts, Scenario.history_items)
  ∧ dict_keys Scenario.history_items = dict_keys Scenario.parts
  ∧ (∀ part_id, part_id ∈ dict_keys Scenario.history_items →
       ∃ part, dict_getitem part_id Scenario.parts = Ok part)
  ∧ (∃ resp, response_items self Scenario.parts Scenario.history_items = Ok resp)
  ∧ (∃ ds, export_dataset Scenario.gettext self Scenario.parts
             Scenario.history_items = Ok ds)
  ∧ format_response Scenario.gettext Scenario.tablib_export self
      Scenario.parts Scenario.history_items ≠ Err KeyError
  ∧ export_data Scenario.gettext Scenario.tablib_export self
      Scenario.parts Scenario.history_items ≠ Err KeyError.
Proof.
  intros self.
  assert (Scenario.aggregate_loop Month Scenario.builds
          = Ok (Scenario.parts, Scenario.history_items)) as H
    by (vm_compute; reflexivity).
  exact (conj H
    (descriptors_never_missing Scenario.month_key Scenario.gettext
       Scenario.tablib_export self Month Scenario.builds
       Scenario.parts Scenario.history_items H)).
Defined.

Lemma unrecognized_order_type_is_lenient_scenario :
  let data := Scenario.reversed (Some "transfer") None in
  (∀ ot, Data.order_type data = Some ot → ot ∉ recognized_order_types)
  ∧ get_with_helper Scenario.month_key Scenario.month_sequence
      Scenario.COMPLETE Scenario.get_descendants Scenario.gettext
      Scenario.tablib_export data Scenario.builds
    = ([], Ok (Response [])).
Proof.
  intros data.
  assert (∀ ot, Data.order_type data = Some ot → ot ∉ recognized_order_types)
    as H.
  { intros ot [= <-]. apply (bool_decide_unpack _). vm_compute. exact I. }
  exact (conj H
    (unrecognized_order_type_is_lenient Scenario.month_key
       Scenario.month_sequence Scenario.COMPLETE Scenario.get_descendants
       Scenario.gettext Scenario.tablib_export data Scenario.builds H)).
Defined.

Lemma inverted_range_scenario :
  let data := Scenario.reversed (Some "build") None in
  date_ltb (Data.end_date data) (Data.start_date data) = true
  ∧ Scenario.get data Scenario.builds = ([], Err InvalidRangeError).
Proof.
  intros data.
  assert (date_ltb (Data.end_date data) (Data.start_date data) = true) as H
    by reflexivity.
  exact (conj H
    (inverted_range_fails_before_aggregation Scenario.month_key
       Scenario.month_sequence Scenario.COMPLETE Scenario.get_descendants
       Scenario.gettext Scenario.tablib_export data Scenario.builds H)).
Defined.

Lemma stub_generators_return_plain_list_scenario :
  let data := Scenario.reversed (Some "sales") (Some "csv") in
  Data.order_type data = Some "sales"
  ∧ "sales" ∈ ["purchase"; "sales"; "return"]
  ∧ get_with_helper Scenario.month_key Scenario.month_sequence
      Scenario.COMPLETE Scenario.get_descendants Scenario.gettext
      Scenario.tablib_export data Scenario.builds
    = ([], Ok (PlainList [])).
Proof.
  intros data.
  assert (Data.order_type data = Some "sales") as H1 by reflexivity.
  assert ("sales" ∈ ["purchase"; "sales"; "return"]) as H2
    by (apply (bool_decide_unpack _); vm_compute; exact I).
  exact (conj H1 (conj H2
    (stub_generators_return_plain_list Scenario.month_key
       Scenario.month_sequence Scenario.COMPLETE Scenario.get_descendants
       Scenario.gettext Scenario.tablib_export data Scenario.builds "sales"
       H1 H2))).
Defined.

(** * Further properties of the view *)

(** ** The queryset *)

Lemma builds_queryset_elem_of COMPLETE get_descendants self (db : list Build.t) b :
  b ∈ builds_queryset COMPLETE get_descendants self db
  ↔ b ∈ db ∧ qualifies COMPLETE get_descendants self b.
Proof.
  unfold builds_queryset, qualifies, in_date_range.
  rewrite !list_elem_of_filter.
  destruct (self_part self) as [p|]; rewrite ?list_elem_of_filter.
  - split.
    + intros (Hd & Hnone & [Hst Hc] & Hp & Hdb).
      destruct (Build.completion_date b) as [d|]; [|done].
      apply andb_prop in Hd as [? ?].
      split_and!; try done; [by intros ? [= <-]|by exists d].
    + intros (Hdb & Hp & Hst & Hc & d & Hd & Hs & He). rewrite Hd.
      split_and!; try done; [by rewrite Hs, He|by apply Hp].
  - split.
    + intros (Hd & Hnone & [Hst Hc] & Hdb).
      destruct (Build.completion_date b) as [d|]; [|done].
      apply andb_prop in Hd as [? ?].
      split_and!; try done. by exists d.
    + intros (Hdb & Hp & Hst & Hc & d & Hd & Hs & He). rewrite Hd.
      split_and!; try done. by rewrite Hs, He.
Qed.

(** ** The aggregate the loop builds *)

Lemma first_seen_elem_of (ks : list Z) k : k ∈ first_seen ks ↔ k ∈ ks.
Proof.
  induction ks as [|k0 ks IH]; simpl; [done|].
  rewrite !elem_of_cons, list_elem_of_filter, IH.
  destruct (decide (k = k0)); intuition.
Qed.

Lemma first_seen_snoc (ks : list Z) k :
  first_seen (ks ++ [k])
  = if decide (k ∈ ks) then first_seen ks else first_seen ks ++ [k].
Proof.
  induction ks as [|k0 ks IH]; simpl.
  - done.
  - rewrite IH. destruct (decide (k ∈ ks)) as [Hin|Hnin].
    + rewrite decide_True by (by right). done.
    + rewrite filter_app. destruct (decide (k = k0)) as [->|Hne].
      * rewrite decide_True by left.
        rewrite filter_cons_False by (by intros ?). by rewrite filter_nil, app_nil_r.
      * rewrite decide_False by (rewrite elem_of_cons; intuition).
        rewrite filter_cons_True by done. by rewrite filter_nil.
Qed.

Lemma first_seen_NoDup (ks : list Z) : NoDup (first_seen ks).
Proof.
  induction ks as [|k ks IH]; simpl; [constructor|].
  constructor; [|by apply NoDup_filter].
  rewrite list_elem_of_filter. by intros [? _].
Qed.

Section aggregate_more.
Variable bucket_key : Date → Period → string.

Lemma aggregate_loop_first_seen p (l : list Build.t) parts hist :
  aggregate_loop bucket_key p l = Ok (parts, hist) →
  dict_keys hist = first_seen (part_ids l).
Proof.
  revert l parts hist.
  apply (aggregate_loop_ind bucket_key p
           (λ l _ hist, dict_keys hist = first_seen (part_ids l))).
  - done.
  - intros l b d parts hist _ _ IH. unfold step_history, part_ids.
    rewrite dict_keys_set, fmap_app. simpl. rewrite first_seen_snoc.
    fold (part_ids l). rewrite <-IH.
    destruct (dict_contains (pk (Build.part b)) hist) eqn:Hc.
    + apply dict_contains_true in Hc. rewrite IH, first_seen_elem_of in Hc.
      by rewrite decide_True.
    + apply dict_contains_false in Hc. rewrite IH, first_seen_elem_of in Hc.
      by rewrite decide_False.
Qed.

Lemma aggregate_loop_first_part p (l : list Build.t) parts hist :
  aggregate_loop bucket_key p l = Ok (parts, hist) →
  ∀ k, dict_get k parts = head (Build.part <$> records_of k l).
Proof.
  intros Hl k. revert l parts hist Hl.
  apply (aggregate_loop_ind bucket_key p
           (λ l parts _, dict_get k parts = head (Build.part <$> records_of k l))).
  - done.
  - intros l b d parts hist _ _ IH. unfold step_parts, records_of in *.
    rewrite filter_app, fmap_app.
    destruct (decide (pk (Build.part b) = k)) as [<-|Hne].
    + rewrite filter_cons_True, filter_nil by done. unfold dict_contains.
      destruct (dict_get (pk (Build.part b)) parts) as [part|] eqn:Hg.
      * rewrite Hg. revert IH. by destruct (Build.part <$> filter _ l).
      * rewrite dict_get_set, decide_True by done. revert IH.
        by destruct (Build.part <$> filter _ l).
    + rewrite filter_cons_False, filter_nil, app_nil_r by done.
      destruct (dict_contains _ parts); [done|].
      by rewrite dict_get_set, decide_False.
Qed.
End aggregate_more.

(** The response lists the parts in the order of [history_items]. *)
Lemma response_items_part_ids self parts (hist : Aggregate) resp :
  (∀ k part, dict_get k parts = Some part → pk part = k) →
  response_items self parts hist = Ok resp →
  (λ item, pk (part item)) <$> resp = dict_keys hist.
Proof.
  intros Hpk Hresp. unfold dict_keys.
  pose proof Hresp as Hlen. unfold response_items, dict_items in Hlen.
  apply result_mapM_lookup in Hlen as [Hlen _].
  apply list_eq. intros i. rewrite !list_lookup_fmap.
  destruct (hist !! i) as [[k e]|] eqn:Hi; simpl.
  - destruct (response_items_lookup _ _ _ _ _ _ _ Hresp Hi) as (part & Hpart & ->).
    simpl. f_equal. by eapply Hpk.
  - apply lookup_ge_None in Hi. rewrite <-Hlen in Hi.
    apply lookup_ge_None in Hi. by rewrite Hi.
Qed.

(** X2. What a bucket holds. After the loop, [history_items[part][key]] is
    the sum of the quantities of the records of that part whose completion
    date falls in that bucket, and the key is absent when there is no such
    record; a part is a key of [history_items] exactly when it has a
    record. *)
Theorem aggregate_holds_bucket_sums bucket_key p (builds : list Build.t)
    parts hist part_id date_key :
  aggregate_loop bucket_key p builds = Ok (parts, hist) →
  aggregate_get part_id date_key hist
  = bucket_total bucket_key p part_id date_key builds
  ∧ (part_id ∈ dict_keys hist ↔ ∃ b, b ∈ builds ∧ pk (Build.part b) = part_id).
Proof.
  intros Hl. split; [by eapply aggregate_loop_get|].
  rewrite <-dict_get_is_Some. by eapply aggregate_loop_present.
Qed.

Lemma aggregate_holds_bucket_sums_scenario :
  Scenario.aggregate_loop Month Scenario.builds
  = Ok (Scenario.parts, Scenario.history_items)
  ∧ aggregate_get 1 "2024-02" Scenario.history_items
    = bucket_total Scenario.month_key Month 1 "2024-02" Scenario.builds
  ∧ (1 ∈ dict_keys Scenario.history_items
     ↔ ∃ b, b ∈ Scenario.builds ∧ pk (Build.part b) = 1).
Proof.
  assert (Scenario.aggregate_loop Month Scenario.builds
          = Ok (Scenario.parts, Scenario.history_items)) as H
    by (vm_compute; reflexivity).
  exact (conj H
    (aggregate_holds_bucket_sums Scenario.month_key Month Scenario.builds
       Scenario.parts Scenario.history_items 1 "2024-02" H)).
Defined.

(** X3. Order of the parts. The keys of [history_items], the keys of
    [parts] and the parts of the structured response all come in the order in
    which the parts first appear in the records, each part once. *)
Theorem parts_in_order_of_first_appearance bucket_key self (builds : list Build.t)
    parts hist :
  aggregate_loop bucket_key (period self) builds = Ok (parts, hist) →
  dict_keys hist = first_seen (part_ids builds)
  ∧ dict_keys parts = first_seen (part_ids builds)
  ∧ NoDup (dict_keys hist)
  ∧ ∃ resp,
      response_items self parts hist = Ok resp
      ∧ (λ item, pk (part item)) <$> resp = first_seen (part_ids builds).
Proof.
  intros Hl.
  pose proof (aggregate_loop_first_seen _ _ _ _ _ Hl) as Hfirst.
  pose proof (aggregate_loop_keys _ _ _ _ _ Hl) as Hkeys.
  destruct (response_items_Ok self parts hist) as [resp Hresp].
  { by rewrite Hkeys. }
  split_and!; [done|congruence|rewrite Hfirst; apply first_seen_NoDup|].
  exists resp. split; [done|]. rewrite <-Hfirst.
  apply (response_items_part_ids self parts hist resp); [|done].
  by eapply aggregate_loop_parts.
Qed.

Lemma parts_in_order_of_first_appearance_scenario :
  let self := Scenario.self None in
  let builds := Scenario.build Scenario.P2 2 2024 1 20 :: Scenario.builds in
  aggregate_loop Scenario.month_key (period self) builds
  = Ok ([(2, Scenario.P2); (1, Scenario.P1)],
        [(2, [("2024-01", 4)]); (1, [("2024-01", 5); ("2024-02", 3)])])
  ∧ dict_keys [(2, [("2024-01", 4)]); (1, [("2024-01", 5); ("2024-02", 3)])]
    = first_seen (part_ids builds)
  ∧ dict_keys [(2, Scenario.P2); (1, Scenario.P1)] = first_seen (part_ids builds)
  ∧ NoDup (dict_keys [(2, [("2024-01", 4)]); (1, [("2024-01", 5); ("2024-02", 3)])])
  ∧ ∃ resp,
      response_items self [(2, Scenario.P2); (1, Scenario.P1)]
        [(2, [("2024-01", 4)]); (1, [("2024-01", 5); ("2024-02", 3)])] = Ok resp
      ∧ (λ item, pk (part item)) <$> resp = first_seen (part_ids builds).
Proof.
  intros self builds.
  assert (aggregate_loop Scenario.month_key (period self) builds
          = Ok ([(2, Scenario.P2); (1, Scenario.P1)],
                [(2, [("2024-01", 4)]); (1, [("2024-01", 5); ("2024-02", 3)])]))
    as H by (vm_compute; reflexivity).
  exact (conj H
    (parts_in_order_of_first_appearance Scenario.month_key self builds _ _ H)).
Defined.

(** X4. The descriptor of a part. [parts] files under each part id the part
    object of the first record with that id; later records of the same part
    do not replace it, and the object's own primary key is the id it is filed
    under. *)
Theorem descriptor_is_first_seen bucket_key p (builds : list Build.t) parts hist
    part_id :
  aggregate_loop bucket_key p builds = Ok (parts, hist) →
  dict_get part_id parts = head (Build.part <$> records_of part_id builds)
  ∧ ∀ part, dict_get part_id parts = Some part → pk part = part_id.
Proof.
  intros Hl. split; [by eapply aggregate_loop_first_part|].
  intros part. by eapply aggregate_loop_parts.
Qed.

Lemma descriptor_is_first_seen_scenario :
  let renamed := {| pk := 1; name := "Widget mk2"; IPN := "W-001" |} in
  let builds :=
    Scenario.builds
      ++ [{| Build.part := renamed; Build.status := 40; Build.completed := 1;
             Build.completion_date := Some {| year := 2024; month := 3; day := 2 |};
             Build.quantity := 1 |}] in
  aggregate_loop Scenario.month_key Month builds
  = Ok (Scenario.parts,
        [(1, [("2024-01", 5); ("2024-02", 3); ("2024-03", 1)]);
         (2, [("2024-01", 2)])])
  ∧ dict_get 1 Scenario.parts = head (Build.part <$> records_of 1 builds)
  ∧ ∀ part, dict_get 1 Scenario.parts = Some part → pk part = 1.
Proof.
  intros renamed builds.
  assert (aggregate_loop Scenario.month_key Month builds
          = Ok (Scenario.parts,
                [(1, [("2024-01", 5); ("2024-02", 3); ("2024-03", 1)]);
                 (2, [("2024-01", 2)])])) as H
    by (vm_compute; reflexivity).
  exact (conj H
    (descriptor_is_first_seen Scenario.month_key Month builds _ _ 1 H)).
Defined.

(** ** From the records to the two outputs *)

Lemma Zsum_nonneg (l : list Z) : Forall (λ z, 0 ≤ z) l → 0 ≤ Zsum l.
Proof. unfold Zsum. induction 1; simpl; lia. Qed.

Section outputs_more.
Variable bucket_key : Date → Period → string.

(** An entry of a part's sparse map is the total of a non-empty bucket. *)
Lemma aggregate_loop_entry p (l : list Build.t) parts hist k e dk :
  aggregate_loop bucket_key p l = Ok (parts, hist) →
  dict_get k hist = Some e →
  dict_get dk e = bucket_total bucket_key p k dk l.
Proof.
  intros Hl Hk. rewrite <-(aggregate_loop_get _ _ _ _ _ Hl k dk).
  unfold aggregate_get. by rewrite Hk.
Qed.

Lemma aggregate_loop_lookup p (l : list Build.t) parts hist i k e :
  aggregate_loop bucket_key p l = Ok (parts, hist) →
  hist !! i = Some (k, e) →
  dict_get k hist = Some e ∧ dict_wf e.
Proof.
  intros Hl Hi. destruct (aggregate_loop_wf _ _ _ _ _ Hl) as [Hwf Hwfe].
  assert (dict_get k hist = Some e) as Hget.
  { apply dict_wf_elem_of_get; [done|]. by eapply list_elem_of_lookup_2. }
  split; [done|]. by eapply Hwfe.
Qed.

Lemma bucket_total_nonneg p (l : list Build.t) k dk q :
  Forall (λ b, 0 ≤ Build.quantity b) l →
  bucket_total bucket_key p k dk l = Some q → 0 ≤ q.
Proof.
  intros Hall. unfold bucket_total.
  assert (Forall (λ z, 0 ≤ z) (Build.quantity <$> records_in bucket_key p k dk l))
    as Hrs.
  { apply Forall_fmap. unfold records_in. apply Forall_forall.
    intros b [_ Hb]%list_elem_of_filter. by eapply Forall_forall in Hall. }
  destruct (records_in bucket_key p k dk l) as [|b rs]; [done|].
  intros [= <-]. exact (Zsum_nonneg (Build.quantity <$> b :: rs) Hrs).
Qed.
End outputs_more.

(** X5. What a history entry shows. For a part of the aggregate and a key B
    of the date range, the structured history pairs B with the sum of the
    quantities of the part's records that fall in bucket B, or with 0 when no
    record does, and with nothing else; the export row of the part holds the
    same number in the column of B. *)
Theorem history_quantity_is_bucket_sum bucket_key gettext self
    (builds : list Build.t) parts hist i part_id entries j B :
  aggregate_loop bucket_key (period self) builds = Ok (parts, hist) →
  hist !! i = Some (part_id, entries) →
  date_range self !! j = Some B →
  let q := default 0 (bucket_total bucket_key (period self) part_id B builds) in
  ∃ resp ds item row,
    response_items self parts hist = Ok resp
    ∧ export_dataset gettext self parts hist = Ok ds
    ∧ resp !! i = Some item
    ∧ rows ds !! i = Some row
    ∧ {| date := B; quantity := q |} ∈ history item
    ∧ (∀ x, x ∈ history item → date x = B → quantity x = q)
    ∧ row !! (3 + j)%nat = Some (CInt q).
Proof.
  intros Hl Hi Hj q.
  destruct (aggregate_loop_lookup _ _ _ _ _ _ _ _ Hl Hi) as [Hget Hwf].
  assert (dict_keys hist ⊆ dict_keys parts) as Hcover
    by (by rewrite (aggregate_loop_keys _ _ _ _ _ Hl)).
  destruct (response_items_Ok self parts hist Hcover) as [resp Hresp].
  destruct (export_dataset_Ok gettext self parts hist Hcover) as [ds Hds].
  destruct (response_items_lookup _ _ _ _ _ _ _ Hresp Hi) as (part & _ & Hitem).
  destruct (export_dataset_lookup _ _ _ _ _ _ _ _ Hds Hi) as (_ & part' & _ & Hrow).
  assert (B ∈ date_range self) as HB by (by eapply list_elem_of_lookup_2).
  assert (dict_get_default B 0 entries = q) as Hq.
  { unfold dict_get_default, q.
    by rewrite (aggregate_loop_entry _ _ _ _ _ _ _ B Hl Hget). }
  destruct (dense_history_quantity (date_range self) entries B Hwf HB) as [Hin Huniq].
  rewrite Hq in Hin, Huniq.
  eexists resp, ds, _, _. split_and!; try done.
  rewrite <-Hq. by apply export_row_lookup.
Qed.

Lemma history_quantity_is_bucket_sum_scenario :
  let self := Scenario.self None in
  let entries := [("2024-01", 5); ("2024-02", 3)] in
  Scenario.aggregate_loop (period self) Scenario.builds
  = Ok (Scenario.parts, Scenario.history_items)
  ∧ Scenario.history_items !! 0%nat = Some (1, entries)
  ∧ date_range self !! 1%nat = Some "2024-02"
  ∧ let q := default 0 (bucket_total Scenario.month_key (period self) 1
                          "2024-02" Scenario.builds) in
    ∃ resp ds item row,
      response_items self Scenario.parts Scenario.history_items = Ok resp
      ∧ export_dataset Scenario.gettext self Scenario.parts
          Scenario.history_items = Ok ds
      ∧ resp !! 0%nat = Some item
      ∧ rows ds !! 0%nat = Some row
      ∧ {| date := "2024-02"; quantity := q |} ∈ history item
      ∧ (∀ x, x ∈ history item → date x = "2024-02" → quantity x = q)
      ∧ row !! (3 + 1)%nat = Some (CInt q).
Proof.
  intros self entries.
  assert (Scenario.aggregate_loop (period self) Scenario.builds
          = Ok (Scenario.parts, Scenario.history_items)) as H1
    by (vm_compute; reflexivity).
  assert (Scenario.history_items !! 0%nat = Some (1, entries)) as H2
    by reflexivity.
  assert (date_range self !! 1%nat = Some "2024-02") as H3 by reflexivity.
  exact (conj H1 (conj H2 (conj H3
    (history_quantity_is_bucket_sum Scenario.month_key Scenario.gettext self
       Scenario.builds Scenario.parts Scenario.history_items 0%nat 1 entries
       1%nat "2024-02" H1 H2 H3)))).
Defined.

(** X6. No negative quantity. When no record has a negative quantity, no
    entry of any history of the structured response has one, and no quantity
    cell of the export has one. *)
Theorem quantities_stay_nonnegative bucket_key gettext self (builds : list Build.t)
    parts hist :
  Forall (λ b, 0 ≤ Build.quantity b) builds →
  aggregate_loop bucket_key (period self) builds = Ok (parts, hist) →
  ∃ resp ds,
    response_items self parts hist = Ok resp
    ∧ export_dataset gettext self parts hist = Ok ds
    ∧ (∀ item x, item ∈ resp → x ∈ history item → 0 ≤ quantity x)
    ∧ (∀ row c, row ∈ rows ds → c ∈ drop 3 row → ∃ q, c = CInt q ∧ 0 ≤ q).
Proof.
  intros Hall Hl.
  assert (dict_keys hist ⊆ dict_keys parts) as Hcover
    by (by rewrite (aggregate_loop_keys _ _ _ _ _ Hl)).
  destruct (response_items_Ok self parts hist Hcover) as [resp Hresp].
  destruct (export_dataset_Ok gettext self parts hist Hcover) as [ds Hds].
  assert (∀ i k e dk, hist !! i = Some (k, e) → 0 ≤ dict_get_default dk 0 e)
    as Hnonneg.
  { intros i k e dk Hi.
    destruct (aggregate_loop_lookup _ _ _ _ _ _ _ _ Hl Hi) as [Hget _].
    unfold dict_get_default.
    rewrite (aggregate_loop_entry _ _ _ _ _ _ _ dk Hl Hget).
    destruct (bucket_total _ _ _ _ _) as [q|] eqn:Hq; [|done].
    by eapply bucket_total_nonneg. }
  exists resp, ds. split_and!; [done..| |].
  - intros item x Hitem Hx.
    apply list_elem_of_lookup in Hitem as [i Hitem].
    pose proof Hresp as Hlen. unfold response_items, dict_items in Hlen.
    apply result_mapM_lookup in Hlen as [Hlen _].
    destruct (hist !! i) as [[k e]|] eqn:Hi.
    + destruct (response_items_lookup _ _ _ _ _ _ _ Hresp Hi) as (part & _ & Hitem').
      rewrite Hitem in Hitem'. injection Hitem' as ->. simpl in Hx.
      destruct (aggregate_loop_lookup _ _ _ _ _ _ _ _ Hl Hi) as [_ Hwf].
      apply dense_history_elem_of in Hx as [Hin|(-> & _)]; [|done].
      specialize (Hnonneg i k e (date x) Hi). unfold dict_get_default in Hnonneg.
      by rewrite (dict_wf_elem_of_get _ _ _ Hwf Hin) in Hnonneg.
    + apply lookup_ge_None in Hi. apply lookup_lt_Some in Hitem. lia.
  - intros row c Hrow Hc.
    apply list_elem_of_lookup in Hrow as [i Hrow].
    unfold export_dataset in Hds.
    destruct (export_rows self parts hist) as [rs|] eqn:Hrs; [|done].
    injection Hds as <-. simpl in Hrow.
    pose proof Hrs as Hlk. unfold export_rows, dict_items in Hlk.
    apply result_mapM_lookup in Hlk as [Hlen Hlk].
    destruct (hist !! i) as [[k e]|] eqn:Hi.
    + destruct (Hlk i _ Hi) as (row' & Hrow' & Hf). simpl in Hf.
      rewrite Hrow in Hrow'. injection Hrow' as <-.
      destruct (dict_getitem k parts) as [part|]; [|done]. simpl in Hf.
      injection Hf as <-. unfold export_row in Hc. simpl in Hc.
      apply list_elem_of_fmap in Hc as (q & -> & Hq).
      apply list_elem_of_fmap in Hq as (dk & -> & _).
      eexists. split; [done|]. by eapply Hnonneg.
    + apply lookup_ge_None in Hi. apply lookup_lt_Some in Hrow. lia.
Qed.

Lemma quantities_stay_nonnegative_scenario :
  let self := Scenario.self None in
  Forall (λ b, 0 ≤ Build.quantity b) Scenario.builds
  ∧ Scenario.aggregate_loop (period self) Scenario.builds
    = Ok (Scenario.parts, Scenario.history_items)
  ∧ ∃ resp ds,
      response_items self Scenario.parts Scenario.history_items = Ok resp
      ∧ export_dataset Scenario.gettext self Scenario.parts
          Scenario.history_items = Ok ds
      ∧ (∀ item x, item ∈ resp → x ∈ history item → 0 ≤ quantity x)
      ∧ (∀ row c, row ∈ rows ds → c ∈ drop 3 row → ∃ q, c = CInt q ∧ 0 ≤ q).
Proof.
  intros self.
  assert (Forall (λ b, 0 ≤ Build.quantity b) Scenario.builds) as H1
    by (apply (bool_decide_unpack _); vm_compute; exact I).
  assert (Scenario.aggregate_loop (period self) Scenario.builds
          = Ok (Scenario.parts, Scenario.history_items)) as H2
    by (vm_compute; reflexivity).
  exact (conj H1 (conj H2
    (quantities_stay_nonnegative Scenario.month_key Scenario.gettext self
       Scenario.builds Scenario.parts Scenario.history_items H1 H2))).
Defined.

(** ** The order of the records and the merging of batches *)

Section sorted_more.
Context {A : Type} (key : A → string).

Local Abbreviation by_key := (λ x y : A, String.le (key x) (key y)).

Lemma insert_by_Sorted x (l : list A) :
  Sorted by_key l → Sorted by_key (insert_by key x l).
Proof.
  induction 1 as [|y l Hl IH Hhd]; simpl.
  - repeat constructor.
  - destruct (decide (String.le (key x) (key y))) as [Hle|Hnle].
    + constructor; [by constructor|by constructor].
    + assert (String.le (key y) (key x)) as Hle
        by (by destruct (total String.le (key x) (key y))).
      constructor; [done|].
      destruct Hhd as [|z l' Hz]; simpl; [by constructor|].
      destruct (decide (String.le (key x) (key z))); by constructor.
Qed.

Lemma sorted_Sorted (l : list A) : Sorted by_key (sorted key l).
Proof.
  induction l as [|x l IH]; simpl; [constructor|]. by apply insert_by_Sorted.
Qed.

(** Sorting forgets the order of a list whose elements differ in their
    keys. *)
Lemma sorted_Permutation_eq (l1 l2 : list A) :
  l1 ≡ₚ l2 →
  (∀ x y, x ∈ l1 → y ∈ l1 → key x = key y → x = y) →
  sorted key l1 = sorted key l2.
Proof.
  intros Hperm Hinj.
  assert (Transitive by_key) as Htrans.
  { intros x y z Hxy Hyz. by etrans. }
  apply (Sorted_unique_strong by_key).
  - intros x y Hx Hy Hxy Hyx.
    rewrite sorted_Permutation in Hx. rewrite sorted_Permutation, <-Hperm in Hy.
    apply Hinj; [done..|]. by apply (anti_symm String.le).
  - apply sorted_Sorted.
  - apply sorted_Sorted.
  - by rewrite !sorted_Permutation.
Qed.
End sorted_more.

(** The dense history and the export row of a part depend on its sparse map
    as a mapping, not on the order of its keys. *)
Lemma sparse_map_Permutation (e e' : dict string Z) :
  dict_wf e → dict_wf e' → (∀ k, dict_get k e = dict_get k e') → e ≡ₚ e'.
Proof.
  intros Hwf Hwf' Heq. apply NoDup_Permutation.
  - by eapply NoDup_fmap_1.
  - by eapply NoDup_fmap_1.
  - intros [k v]. split; intros Hin.
    + apply dict_get_elem_of. rewrite <-Heq. by apply dict_wf_elem_of_get.
    + apply dict_get_elem_of. rewrite Heq. by apply dict_wf_elem_of_get.
Qed.

Lemma dense_history_ext dr (e e' : dict string Z) :
  dict_wf e → dict_wf e' → (∀ k, dict_get k e = dict_get k e') →
  dense_history dr e = dense_history dr e'.
Proof.
  intros Hwf Hwf' Heq. rewrite !dense_history_eq.
  assert (∀ k, k ∉ dict_keys e ↔ k ∉ dict_keys e') as Hkeys.
  { intros k. by rewrite <-!dict_get_None, Heq. }
  apply sorted_Permutation_eq.
  - rewrite (list_filter_iff _ _ dr Hkeys).
    by rewrite (sparse_map_Permutation e e').
  - intros x y Hx Hy Hxy.
    rewrite <-sorted_Permutation, <-dense_history_eq in Hx, Hy.
    apply dense_history_elem_of in Hx as [Hx|(Hx & _ & Hnx)],
                                   Hy as [Hy|(Hy & _ & Hny)].
    + apply (dict_wf_elem_of_get _ _ _ Hwf) in Hx, Hy.
      rewrite Hxy in Hx. destruct x, y; simpl in *. congruence.
    + destruct Hny. rewrite <-Hxy. apply list_elem_of_fmap.
      by exists (date x, quantity x).
    + destruct Hnx. rewrite Hxy. apply list_elem_of_fmap.
      by exists (date y, quantity y).
    + destruct x, y; simpl in *. congruence.
Qed.

Lemma export_row_ext self k part (e e' : dict string Z) :
  (∀ dk, dict_get dk e = dict_get dk e') →
  export_row self k part e = export_row self k part e'.
Proof.
  intros Heq. unfold export_row. do 2 f_equal.
  apply list_fmap_ext. intros _ dk _. unfold dict_get_default. by rewrite Heq.
Qed.

Section batches.
Variable bucket_key : Date → Period → string.

Lemma aggregate_loop_dated p (l : list Build.t) st :
  aggregate_loop bucket_key p l = Ok st →
  Forall (λ b, is_Some (Build.completion_date b)) l.
Proof.
  intros Hl. apply Forall_forall. intros b Hb.
  destruct (Build.completion_date b) as [d|] eqn:Hd; [by eexists|].
  pose proof (aggregate_run_missing bucket_key p ([], []) _ _ Hb Hd) as Hm.
  unfold aggregate_loop in Hl. congruence.
Qed.

Lemma bucket_total_app p k dk (l1 l2 : list Build.t) :
  bucket_total bucket_key p k dk (l1 ++ l2)
  = union_with (λ a b, Some (a + b))
      (bucket_total bucket_key p k dk l1) (bucket_total bucket_key p k dk l2).
Proof.
  unfold bucket_total, records_in. rewrite filter_app.
  destruct (filter _ l1) as [|x1 r1], (filter _ l2) as [|x2 r2]; simpl; try done.
  - by rewrite app_nil_r.
  - change (Some (Zsum (Build.quantity <$> (x1 :: r1) ++ x2 :: r2))
            = Some (Zsum (Build.quantity <$> x1 :: r1)
                    + Zsum (Build.quantity <$> x2 :: r2))).
    by rewrite fmap_app, Zsum_app.
Qed.
End batches.

(** X7. The order of the records does not show. Given the same records in
    another order, the loop builds for every part a sparse map from which
    [format_response] derives the same dense history, entry for entry, and
    [export_data] the same row. *)
Theorem history_independent_of_record_order bucket_key self
    (builds builds' : list Build.t) parts hist :
  builds ≡ₚ builds' →
  aggregate_loop bucket_key (period self) builds = Ok (parts, hist) →
  ∃ parts' hist',
    aggregate_loop bucket_key (period self) builds' = Ok (parts', hist')
    ∧ ∀ k e, dict_get k hist = Some e →
        ∃ e', dict_get k hist' = Some e'
              ∧ dense_history (date_range self) e'
                = dense_history (date_range self) e
              ∧ ∀ part, export_row self k part e' = export_row self k part e.
Proof.
  intros Hperm Hl.
  destruct (aggregate_run_Ok bucket_key (period self) ([], []) builds')
    as [[parts' hist'] Hl'].
  { rewrite <-Hperm. by eapply aggregate_loop_dated. }
  exists parts', hist'. split; [done|]. intros k e Hk.
  assert (is_Some (dict_get k hist')) as [e' Hk'].
  { apply (aggregate_loop_present _ _ _ _ _ Hl').
    assert (is_Some (dict_get k hist)) as Hs by (by eexists).
    apply (aggregate_loop_present _ _ _ _ _ Hl) in Hs as (b & Hb & Hpk).
    exists b. by rewrite <-Hperm. }
  assert (∀ dk, dict_get dk e' = dict_get dk e) as Heq.
  { intros dk.
    rewrite (aggregate_loop_entry _ _ _ _ _ _ _ dk Hl Hk).
    rewrite (aggregate_loop_entry _ _ _ _ _ _ _ dk Hl' Hk').
    symmetry. by apply bucket_total_Permutation. }
  destruct (aggregate_loop_wf _ _ _ _ _ Hl) as [_ Hwf].
  destruct (aggregate_loop_wf _ _ _ _ _ Hl') as [_ Hwf'].
  exists e'. split_and!; [done| |].
  - apply dense_history_ext; eauto.
  - intros part. by apply export_row_ext.
Qed.

Lemma history_independent_of_record_order_scenario :
  let self := Scenario.self None in
  Scenario.builds ≡ₚ reverse Scenario.builds
  ∧ aggregate_loop Scenario.month_key (period self) Scenario.builds
    = Ok (Scenario.parts, Scenario.history_items)
  ∧ ∃ parts' hist',
      aggregate_loop Scenario.month_key (period self) (reverse Scenario.builds)
      = Ok (parts', hist')
      ∧ ∀ k e, dict_get k Scenario.history_items = Some e →
          ∃ e', dict_get k hist' = Some e'
                ∧ dense_history (date_range self) e'
                  = dense_history (date_range self) e
                ∧ ∀ part, export_row self k part e' = export_row self k part e.
Proof.
  intros self.
  assert (Scenario.builds ≡ₚ reverse Scenario.builds) as H1
    by (symmetry; apply reverse_Permutation).
  assert (aggregate_loop Scenario.month_key (period self) Scenario.builds
          = Ok (Scenario.parts, Scenario.history_items)) as H2
    by (vm_compute; reflexivity).
  exact (conj H1 (conj H2
    (history_independent_of_record_order Scenario.month_key self
       Scenario.builds (reverse Scenario.builds) Scenario.parts
       Scenario.history_items H1 H2))).
Defined.

(** X8. Batches add up. The aggregate of two lists of records put end to
    end is the merge of their aggregates: a part of either list is present,
    and a bucket holds the sum of what it holds in the two. *)
Theorem aggregate_of_concatenation bucket_key p (l1 l2 : list Build.t)
    parts1 hist1 parts2 hist2 :
  aggregate_loop bucket_key p l1 = Ok (parts1, hist1) →
  aggregate_loop bucket_key p l2 = Ok (parts2, hist2) →
  ∃ parts hist,
    aggregate_loop bucket_key p (l1 ++ l2) = Ok (parts, hist)
    ∧ aggregate_map hist
      = merge_aggregates (aggregate_map hist1) (aggregate_map hist2).
Proof.
  intros Hl1 Hl2.
  destruct (aggregate_run_Ok bucket_key p ([], []) (l1 ++ l2))
    as [[parts hist] Hl].
  { apply Forall_app. split; by eapply aggregate_loop_dated. }
  exists parts, hist. split; [done|].
  apply map_eq. intros k. unfold merge_aggregates, aggregate_map.
  rewrite lookup_union_with, !lookup_fmap, !dict_map_lookup.
  pose proof (aggregate_loop_present _ _ _ _ _ Hl k) as Hk.
  pose proof (aggregate_loop_present _ _ _ _ _ Hl1 k) as Hk1.
  pose proof (aggregate_loop_present _ _ _ _ _ Hl2 k) as Hk2.
  pose proof (λ dk, aggregate_loop_get _ _ _ _ _ Hl k dk) as Hg.
  pose proof (λ dk, aggregate_loop_get _ _ _ _ _ Hl1 k dk) as Hg1.
  pose proof (λ dk, aggregate_loop_get _ _ _ _ _ Hl2 k dk) as Hg2.
  unfold aggregate_get in Hg, Hg1, Hg2.
  assert (is_Some (dict_get k hist)
          ↔ is_Some (dict_get k hist1) ∨ is_Some (dict_get k hist2)) as Hiff.
  { rewrite Hk, Hk1, Hk2. setoid_rewrite elem_of_app. split.
    - intros (b & [Hb|Hb] & Hpk); [left|right]; eauto.
    - intros [(b & Hb & Hpk)|(b & Hb & Hpk)]; exists b; eauto. }
  assert (∀ (e : dict string Z) (e1 e2 : option (dict string Z)),
            is_Some e1 ∨ is_Some e2 →
            (∀ dk, dict_get dk e
                   = union_with (λ a b, Some (a + b))
                       (e1 ≫= dict_get dk) (e2 ≫= dict_get dk)) →
            Some (dict_map e)
            = union_with
                (λ m1 m2, Some (union_with (λ a b, Some (a + b)) m1 m2))
                (dict_map <$> e1) (dict_map <$> e2)) as Hinner.
  { intros e e1 e2 Hsome He.
    destruct e1 as [e1|], e2 as [e2|]; simpl in *;
      [| | |by destruct Hsome as [[? ?]|[? ?]]];
      f_equal; apply map_eq; intros dk;
      rewrite ?lookup_union_with, !dict_map_lookup, He; try done.
    - by destruct (dict_get dk e1).
    - by destruct (dict_get dk e2). }
  destruct (dict_get k hist) as [e|]; simpl.
  - apply Hinner; [by apply Hiff|].
    intros dk. pose proof (Hg dk) as Hd. simpl in Hd.
    by rewrite Hd, bucket_total_app, <-Hg1, <-Hg2.
  - destruct (dict_get k hist1) as [e1|].
    { destruct Hiff as [_ Hiff]. by destruct Hiff; [left; eexists|]. }
    destruct (dict_get k hist2) as [e2|]; [|done].
    destruct Hiff as [_ Hiff]. by destruct Hiff; [right; eexists|].
Qed.

Lemma aggregate_of_concatenation_scenario :
  let l1 := take 1 Scenario.builds in
  let l2 := drop 1 Scenario.builds in
  aggregate_loop Scenario.month_key Month l1
  = Ok ([(1, Scenario.P1)], [(1, [("2024-01", 5)])])
  ∧ aggregate_loop Scenario.month_key Month l2
    = Ok ([(1, Scenario.P1); (2, Scenario.P2)],
          [(1, [("2024-02", 3)]); (2, [("2024-01", 2)])])
  ∧ ∃ parts hist,
      aggregate_loop Scenario.month_key Month (l1 ++ l2) = Ok (parts, hist)
      ∧ aggregate_map hist
        = merge_aggregates (aggregate_map [(1, [("2024-01", 5)])])
            (aggregate_map [(1, [("2024-02", 3)]); (2, [("2024-01", 2)])]).
Proof.
  intros l1 l2.
  assert (aggregate_loop Scenario.month_key Month l1
          = Ok ([(1, Scenario.P1)], [(1, [("2024-01", 5)])])) as H1
    by (vm_compute; reflexivity).
  assert (aggregate_loop Scenario.month_key Month l2
          = Ok ([(1, Scenario.P1); (2, Scenario.P2)],
                [(1, [("2024-02", 3)]); (2, [("2024-01", 2)])])) as H2
    by (vm_compute; reflexivity).
  exact (conj H1 (conj H2
    (aggregate_of_concatenation Scenario.month_key Month l1 l2 _ _ _ _ H1 H2))).
Defined.

(** ** Edge cases of the two outputs *)

Lemma result_mapM_Err {A B} (f : A → result B) (l : list A) e :
  (∀ x, x ∈ l → (∃ y, f x = Ok y) ∨ f x = Err e) →
  (∃ x, x ∈ l ∧ f x = Err e) →
  result_mapM f l = Err e.
Proof.
  induction l as [|x l IH]; intros Hall (x0 & Hin & Herr); simpl.
  - by apply elem_of_nil in Hin.
  - destruct (Hall x) as [[y Hy]|Hx]; [left| |by rewrite Hx].
    rewrite Hy. simpl. rewrite IH; [done| |].
    + intros z Hz. apply Hall. by right.
    + apply elem_of_cons in Hin as [->|Hin]; [congruence|eauto].
Qed.

Lemma both_sides_cover (l1 l2 : list string) :
  NoDup l1 → NoDup l2 →
  (length l1 + length (filter (λ k, k ∉ l1) l2)
   = length l2 + length (filter (λ k, k ∉ l2) l1))%nat.
Proof.
  intros H1 H2. rewrite <-!length_app. apply Permutation_length.
  apply NoDup_Permutation.
  - apply NoDup_app. split_and!; [done| |by apply NoDup_filter].
    intros k Hk [Hnk _]%list_elem_of_filter. done.
  - apply NoDup_app. split_and!; [done| |by apply NoDup_filter].
    intros k Hk [Hnk _]%list_elem_of_filter. done.
  - intros k. rewrite !elem_of_app, !list_elem_of_filter.
    destruct (decide (k ∈ l1)), (decide (k ∈ l2)); intuition.
Qed.

(** X9. A missing descriptor is loud. When some part of [history_items] has
    no entry in [part_dict], both output paths raise [KeyError], whatever the
    other parts are: no partial response, no partial export. *)
Theorem missing_descriptor_raises gettext tablib_export self parts
    (hist : Aggregate) part_id :
  part_id ∈ dict_keys hist →
  part_id ∉ dict_keys parts →
  response_items self parts hist = Err KeyError
  ∧ export_dataset gettext self parts hist = Err KeyError
  ∧ format_response gettext tablib_export self parts hist = Err KeyError
  ∧ export_data gettext tablib_export self parts hist = Err KeyError.
Proof.
  intros Hin Hnin.
  apply list_elem_of_fmap in Hin as ([k e] & -> & Hin). simpl in Hnin.
  apply dict_get_None in Hnin.
  assert (response_items self parts hist = Err KeyError) as Hresp.
  { unfold response_items, dict_items. apply result_mapM_Err.
    - intros [k' e'] _. unfold dict_getitem.
      destruct (dict_get k' parts); [left; by eexists|by right].
    - exists (k, e). split; [done|]. unfold dict_getitem. by rewrite Hnin. }
  assert (export_rows self parts hist = Err KeyError) as Hrows.
  { unfold export_rows, dict_items. apply result_mapM_Err.
    - intros [k' e'] _. unfold dict_getitem.
      destruct (dict_get k' parts); [left; by eexists|by right].
    - exists (k, e). split; [done|]. unfold dict_getitem. by rewrite Hnin. }
  assert (export_dataset gettext self parts hist = Err KeyError) as Hds
    by (unfold export_dataset; by rewrite Hrows).
  split_and!; [done|done| |].
  - unfold format_response, export_data. rewrite Hresp, Hds.
    by destruct (truthy _).
  - unfold export_data. by rewrite Hds.
Qed.

Lemma missing_descriptor_raises_scenario :
  let self := Scenario.self None in
  2 ∈ dict_keys Scenario.history_items
  ∧ (2 ∉ dict_keys Edge.orphan_parts)
  ∧ response_items self Edge.orphan_parts Scenario.history_items = Err KeyError
  ∧ export_dataset Scenario.gettext self Edge.orphan_parts
      Scenario.history_items = Err KeyError
  ∧ format_response Scenario.gettext Scenario.tablib_export self
      Edge.orphan_parts Scenario.history_items = Err KeyError
  ∧ export_data Scenario.gettext Scenario.tablib_export self
      Edge.orphan_parts Scenario.history_items = Err KeyError.
Proof.
  intros self.
  assert (2 ∈ dict_keys Scenario.history_items) as H1
    by (apply (bool_decide_unpack _); vm_compute; exact I).
  assert (2 ∉ dict_keys Edge.orphan_parts) as H2
    by (apply (bool_decide_unpack _); vm_compute; exact I).
  exact (conj H1 (conj H2
    (missing_descriptor_raises Scenario.gettext Scenario.tablib_export self
       Edge.orphan_parts Scenario.history_items 2 H1 H2))).
Defined.

(** X10. Shape of the export. The dataset handed to the tabular sink has
    the three labels followed by the keys of the date range as its header,
    and one row per part of [history_items], in the same order; every row is
    as wide as the header and starts with the part's id, name and IPN. *)
Theorem export_dataset_shape gettext self parts (hist : Aggregate) :
  dict_keys hist ⊆ dict_keys parts →
  ∃ ds,
    export_dataset gettext self parts hist = Ok ds
    ∧ headers ds
      = [CStr (gettext "Part ID"); CStr (gettext "Part Name");
         CStr (gettext "IPN")] ++ (CStr <$> date_range self)
    ∧ length (rows ds) = length hist
    ∧ (∀ row, row ∈ rows ds → length row = length (headers ds))
    ∧ ∀ i k e, hist !! i = Some (k, e) →
        ∃ part row,
          dict_get k parts = Some part
          ∧ rows ds !! i = Some row
          ∧ take 3 row = [CInt k; CStr (name part); CStr (IPN part)].
Proof.
  intros Hcover.
  destruct (export_dataset_Ok gettext self parts hist Hcover) as [ds Hds].
  exists ds. split; [done|].
  pose proof Hds as Hrows. unfold export_dataset in Hrows.
  destruct (export_rows self parts hist) as [rs|] eqn:Hrs; [|done].
  injection Hrows as <-. simpl.
  pose proof Hrs as Hlk. unfold export_rows, dict_items in Hlk.
  apply result_mapM_lookup in Hlk as [Hlen Hlk].
  split_and!; [done|done| |].
  - intros row Hrow. apply list_elem_of_lookup in Hrow as [i Hrow].
    destruct (hist !! i) as [[k e]|] eqn:Hi.
    + destruct (Hlk i _ Hi) as (row' & Hrow' & Hf). simpl in Hf.
      rewrite Hrow in Hrow'. injection Hrow' as <-.
      destruct (dict_getitem k parts) as [part|]; [|done].
      injection Hf as <-. apply (export_row_length gettext).
    + apply lookup_ge_None in Hi. apply lookup_lt_Some in Hrow. lia.
  - intros i k e Hi.
    destruct (export_dataset_lookup _ _ _ _ _ _ _ _ Hds Hi)
      as (_ & part & Hpart & Hrow).
    exists part, (export_row self k part e). by split_and!.
Qed.

Lemma export_dataset_shape_scenario :
  let self := Scenario.self (Some "csv") in
  dict_keys Scenario.history_items ⊆ dict_keys Scenario.parts
  ∧ ∃ ds,
      export_dataset Scenario.gettext self Scenario.parts
        Scenario.history_items = Ok ds
      ∧ headers ds
        = [CStr (Scenario.gettext "Part ID"); CStr (Scenario.gettext "Part Name");
           CStr (Scenario.gettext "IPN")] ++ (CStr <$> date_range self)
      ∧ length (rows ds) = length Scenario.history_items
      ∧ (∀ row, row ∈ rows ds → length row = length (headers ds))
      ∧ ∀ i k e, Scenario.history_items !! i = Some (k, e) →
          ∃ part row,
            dict_get k Scenario.parts = Some part
            ∧ rows ds !! i = Some row
            ∧ take 3 row = [CInt k; CStr (name part); CStr (IPN part)].
Proof.
  intros self.
  assert (dict_keys Scenario.history_items ⊆ dict_keys Scenario.parts) as H
    by (apply (bool_decide_unpack _); vm_compute; exact I).
  exact (conj H
    (export_dataset_shape Scenario.gettext self Scenario.parts
       Scenario.history_items H)).
Defined.

(** X11. A bucket key outside the date range. [format_response] keeps
    every entry of the sparse map: the history has one entry per key of the
    date range and one more per sparse key outside it. [export_data] has
    columns for the keys of the date range only, so such an entry is in the
    structured response and not in the export. *)
Theorem stray_keys_show_in_history_only self part_id part (entries : dict string Z) :
  dict_wf entries →
  NoDup (date_range self) →
  let stray := filter (λ k, k ∉ date_range self) (dict_keys entries) in
  length (dense_history (date_range self) entries)
  = (length (date_range self) + length stray)%nat
  ∧ (∀ k, k ∈ stray →
       ∃ q, dict_get k entries = Some q
            ∧ {| date := k; quantity := q |}
              ∈ dense_history (date_range self) entries)
  ∧ length (export_row self part_id part entries)
    = (3 + length (date_range self))%nat
  ∧ drop 3 (export_row self part_id part entries)
    = (λ B, CInt (dict_get_default B 0 entries)) <$> date_range self.
Proof.
  intros Hwf Hnd stray. split_and!.
  - rewrite <-(length_fmap date), dense_history_dates_Permutation, length_app.
    by apply both_sides_cover.
  - intros k [_ Hk]%list_elem_of_filter.
    apply dict_get_is_Some in Hk as [q Hq]. exists q. split; [done|].
    apply dense_history_elem_of. left. by apply dict_get_elem_of.
  - unfold export_row. by rewrite length_app, !length_fmap.
  - unfold export_row. simpl. by rewrite <-list_fmap_compose.
Qed.

Lemma stray_keys_show_in_history_only_scenario :
  let self := Scenario.self None in
  dict_wf Edge.stray_entries
  ∧ NoDup (date_range self)
  ∧ let stray := filter (λ k, k ∉ date_range self) (dict_keys Edge.stray_entries) in
    length (dense_history (date_range self) Edge.stray_entries)
    = (length (date_range self) + length stray)%nat
    ∧ (∀ k, k ∈ stray →
         ∃ q, dict_get k Edge.stray_entries = Some q
              ∧ {| date := k; quantity := q |}
                ∈ dense_history (date_range self) Edge.stray_entries)
    ∧ length (export_row self 1 Scenario.P1 Edge.stray_entries)
      = (3 + length (date_range self))%nat
    ∧ drop 3 (export_row self 1 Scenario.P1 Edge.stray_entries)
      = (λ B, CInt (dict_get_default B 0 Edge.stray_entries)) <$> date_range self.
Proof.
  intros self.
  assert (dict_wf Edge.stray_entries) as H1
    by (apply (bool_decide_unpack _); vm_compute; exact I).
  assert (NoDup (date_range self)) as H2
    by (apply (bool_decide_unpack _); vm_compute; exact I).
  exact (conj H1 (conj H2
    (stray_keys_show_in_history_only self 1 Scenario.P1 Edge.stray_entries
       H1 H2))).
Defined.

(** ** The handler for build orders, end to end *)

Section get_build.
Variable bucket_key : Date → Period → string.
Variable bucket_sequence : Date → Date → Period → list string.
Variable COMPLETE : list Z.
Variable get_descendants : Part → list Z.
Variable gettext : string → string.
Variable tablib_export : Dataset → option string → option string.

Local Abbreviation handler :=
  (get bucket_key bucket_sequence COMPLETE get_descendants gettext tablib_export).
Local Abbreviation range_of data :=
  (bucket_sequence (Data.start_date data) (Data.end_date data)
     (default Month (Data.period data))).
Local Abbreviation queryset := (builds_queryset COMPLETE get_descendants).

(** With a well-formed range, a build request goes to the build generator,
    which gets through its loop. *)
Lemma get_build data (db : list Build.t) :
  date_ltb (Data.end_date data) (Data.start_date data) = false →
  Data.order_type data = Some "build" →
  ∃ parts hist,
    aggregate_loop bucket_key (default Month (Data.period data))
      (queryset (view_of data (range_of data)) db) = Ok (parts, hist)
    ∧ dict_keys parts = dict_keys hist
    ∧ handler data db
      = ([QueryBuilds],
         format_response gettext tablib_export (view_of data (range_of data))
           parts hist).
Proof.
  intros Hle Hot.
  destruct (generate_build_order_history_runs bucket_key COMPLETE get_descendants
              gettext tablib_export (view_of data (range_of data)) db)
    as (parts & hist & Hloop & Hkeys & Hgen).
  exists parts, hist. split_and!; [done..|].
  rewrite <-Hgen. unfold get, construct_date_range. rewrite Hle. simpl.
  by rewrite Hot.
Qed.

(** A bucket that is not empty has a record. *)
Lemma bucket_total_Some_record p k dk (l : list Build.t) q :
  bucket_total bucket_key p k dk l = Some q →
  ∃ b d, b ∈ l ∧ pk (Build.part b) = k
         ∧ Build.completion_date b = Some d ∧ bucket_key d p = dk.
Proof.
  unfold bucket_total.
  destruct (records_in bucket_key p k dk l) as [|b rs] eqn:Hrs; [done|].
  intros _. assert (b ∈ records_in bucket_key p k dk l) as Hb
    by (rewrite Hrs; left).
  unfold records_in in Hb. apply list_elem_of_filter in Hb as [[Hk Hd] Hb].
  destruct (Build.completion_date b) as [d|] eqn:Hcd; [|done].
  injection Hd as Hd. by exists b, d.
Qed.
End get_build.

(** X12. A build request. With start_date <= end_date, the handler reads the
    build table once, aggregates the builds of the queryset and formats the
    result, and neither a missing timestamp nor a missing descriptor can stop
    it: without an export format the answer is a response that lists each
    part of the queryset once, in the order of first appearance; with one,
    it is the download the tabular sink produces from the dataset, or the
    sink's refusal of the format. *)
Theorem build_request_outcome
    bucket_key bucket_sequence COMPLETE get_descendants gettext tablib_export
    data (db : list Build.t) :
  date_ltb (Data.end_date data) (Data.start_date data) = false →
  Data.order_type data = Some "build" →
  let self :=
    view_of data
      (bucket_sequence (Data.start_date data) (Data.end_date data)
         (default Month (Data.period data))) in
  let builds := builds_queryset COMPLETE get_descendants self db in
  let answer :=
    get bucket_key bucket_sequence COMPLETE get_descendants gettext
      tablib_export data db in
  answer.1 = [QueryBuilds]
  ∧ (truthy (Data.export data) = false →
     ∃ resp,
       answer.2 = Ok (Response resp)
       ∧ (λ item, pk (part item)) <$> resp = first_seen (part_ids builds))
  ∧ (truthy (Data.export data) = true →
     ∃ ds,
       length (rows ds) = length (first_seen (part_ids builds))
       ∧ answer.2
         = match tablib_export ds (Data.export data) with
           | Some bytes =>
               Ok (DownloadFile bytes
                     ("order_history." +:+ default "None" (Data.export data)))
           | None => Err UnsupportedExportFormatError
           end).
Proof.
  intros Hle Hot self builds answer.
  destruct (get_build bucket_key bucket_sequence COMPLETE get_descendants gettext
              tablib_export data db Hle Hot)
    as (parts & hist & Hloop & Hkeys & Hget).
  fold self in Hloop, Hget. fold builds in Hloop. fold answer in Hget.
  assert (dict_keys hist ⊆ dict_keys parts) as Hcover by (by rewrite Hkeys).
  pose proof (aggregate_loop_first_seen _ _ _ _ _ Hloop) as Hfirst.
  rewrite Hget. simpl. split_and!; [done| |].
  - intros Hexp.
    destruct (response_items_Ok self parts hist Hcover) as [resp Hresp].
    exists resp. unfold format_response.
    change (export_format self) with (Data.export data).
    rewrite Hexp, Hresp. split; [done|]. rewrite <-Hfirst.
    apply (response_items_part_ids self parts hist resp); [|done].
    by eapply aggregate_loop_parts.
  - intros Hexp.
    destruct (export_dataset_Ok gettext self parts hist Hcover) as [ds Hds].
    exists ds. split.
    + unfold export_dataset in Hds.
      destruct (export_rows self parts hist) as [rs|] eqn:Hrs; [|done].
      injection Hds as <-. simpl. unfold export_rows, dict_items in Hrs.
      apply result_mapM_lookup in Hrs as [-> _].
      by rewrite <-Hfirst, <-(length_fmap fst hist).
    + unfold format_response, export_data.
      change (export_format self) with (Data.export data).
      by rewrite Hexp, Hds.
Qed.

Lemma build_request_outcome_scenario :
  let data := Scenario.data (Some "build") (Some "csv") in
  date_ltb (Data.end_date data) (Data.start_date data) = false
  ∧ Data.order_type data = Some "build"
  ∧ let self :=
      view_of data
        (Scenario.month_sequence (Data.start_date data) (Data.end_date data)
           (default Month (Data.period data))) in
    let builds :=
      builds_queryset Scenario.COMPLETE Scenario.get_descendants self Edge.table in
    let answer := Scenario.get data Edge.table in
    answer.1 = [QueryBuilds]
    ∧ (truthy (Data.export data) = false →
       ∃ resp,
         answer.2 = Ok (Response resp)
         ∧ (λ item, pk (part item)) <$> resp = first_seen (part_ids builds))
    ∧ (truthy (Data.export data) = true →
       ∃ ds,
         length (rows ds) = length (first_seen (part_ids builds))
         ∧ answer.2
           = match Scenario.tablib_export ds (Data.export data) with
             | Some bytes =>
                 Ok (DownloadFile bytes
                       ("order_history." +:+ default "None" (Data.export data)))
             | None => Err UnsupportedExportFormatError
             end).
Proof.
  intros data.
  assert (date_ltb (Data.end_date data) (Data.start_date data) = false) as H1
    by reflexivity.
  assert (Data.order_type data = Some "build") as H2 by reflexivity.
  exact (conj H1 (conj H2
    (build_request_outcome Scenario.month_key Scenario.month_sequence
       Scenario.COMPLETE Scenario.get_descendants Scenario.gettext
       Scenario.tablib_export data Edge.table H1 H2))).
Defined.

(** X13. Dense histories, end to end. When the calendar is consistent on the
    requested range (every date of the range has its bucket key in the bucket
    sequence, which has no duplicate), every history of the response to a
    build request has exactly the keys of the bucket sequence, each once, in
    ascending order: the date filter of the queryset keeps every aggregated
    key inside the sequence. *)
Theorem build_response_is_dense
    bucket_key bucket_sequence COMPLETE get_descendants gettext tablib_export
    data (db : list Build.t) :
  date_ltb (Data.end_date data) (Data.start_date data) = false →
  Data.order_type data = Some "build" →
  truthy (Data.export data) = false →
  let date_range :=
    bucket_sequence (Data.start_date data) (Data.end_date data)
      (default Month (Data.period data)) in
  NoDup date_range →
  (∀ d, date_leb (Data.start_date data) d = true →
        date_leb d (Data.end_date data) = true →
        bucket_key d (default Month (Data.period data)) ∈ date_range) →
  ∃ resp,
    get bucket_key bucket_sequence COMPLETE get_descendants gettext
      tablib_export data db
    = ([QueryBuilds], Ok (Response resp))
    ∧ ∀ item, item ∈ resp →
        date <$> history item ≡ₚ date_range
        ∧ length (history item) = length date_range
        ∧ ascending (date <$> history item).
Proof.
  intros Hle Hot Hexp date_range Hnd Hcal.
  destruct (get_build bucket_key bucket_sequence COMPLETE get_descendants gettext
              tablib_export data db Hle Hot)
    as (parts & hist & Hloop & Hkeys & Hget).
  fold date_range in Hloop, Hget.
  set (self := view_of data date_range) in *.
  assert (dict_keys hist ⊆ dict_keys parts) as Hcover by (by rewrite Hkeys).
  destruct (response_items_Ok self parts hist Hcover) as [resp Hresp].
  exists resp. split.
  { rewrite Hget. unfold format_response.
    change (export_format self) with (Data.export data).
    by rewrite Hexp, Hresp. }
  intros item Hitem. apply list_elem_of_lookup in Hitem as [i Hitem].
  pose proof Hresp as Hlen. unfold response_items, dict_items in Hlen.
  apply result_mapM_lookup in Hlen as [Hlen _].
  destruct (hist !! i) as [[k e]|] eqn:Hi; cycle 1.
  { apply lookup_ge_None in Hi. apply lookup_lt_Some in Hitem. lia. }
  destruct (response_items_lookup _ _ _ _ _ _ _ Hresp Hi) as (part & _ & Hitem').
  rewrite Hitem in Hitem'. injection Hitem' as ->. simpl.
  destruct (aggregate_loop_lookup _ _ _ _ _ _ _ _ Hloop Hi) as [Hget_k Hwf].
  assert (dict_keys e ⊆ date_range) as Hin.
  { intros dk Hdk. apply dict_get_is_Some in Hdk as [q Hq].
    rewrite (aggregate_loop_entry _ _ _ _ _ _ _ dk Hloop Hget_k) in Hq.
    apply bucket_total_Some_record in Hq as (b & d & Hb & _ & Hd & <-).
    apply builds_queryset_elem_of in Hb as (_ & _ & _ & _ & d' & Hd' & Hs & He).
    rewrite Hd in Hd'. injection Hd' as <-. by apply Hcal. }
  pose proof (dense_history_dates date_range e Hwf Hnd Hin) as Hperm.
  split_and!; [done| |apply dense_history_ascending].
  by rewrite <-(length_fmap date), Hperm.
Qed.

Lemma month_calendar_consistent d :
  let data := Scenario.data (Some "build") None in
  date_leb (Data.start_date data) d = true →
  date_leb d (Data.end_date data) = true →
  Scenario.month_key d Month
  ∈ Scenario.month_sequence (Data.start_date data) (Data.end_date data) Month.
Proof.
  destruct d as [y m dd]. unfold date_leb. simpl. intros Hs He.
  assert (y = 2024 ∧ (m = 1 ∨ m = 2 ∨ m = 3)) as [-> Hm].
  { repeat case_decide; repeat case_bool_decide; try done; lia. }
  destruct Hm as [-> | [-> | ->]];
    apply (bool_decide_unpack _); vm_compute; exact I.
Qed.

Lemma build_response_is_dense_scenario :
  let data := Scenario.data (Some "build") None in
  let date_range :=
    Scenario.month_sequence (Data.start_date data) (Data.end_date data)
      (default Month (Data.period data)) in
  date_ltb (Data.end_date data) (Data.start_date data) = false
  ∧ Data.order_type data = Some "build"
  ∧ truthy (Data.export data) = false
  ∧ NoDup date_range
  ∧ (∀ d, date_leb (Data.start_date data) d = true →
          date_leb d (Data.end_date data) = true →
          Scenario.month_key d (default Month (Data.period data)) ∈ date_range)
  ∧ ∃ resp,
      Scenario.get data Edge.table = ([QueryBuilds], Ok (Response resp))
      ∧ ∀ item, item ∈ resp →
          date <$> history item ≡ₚ date_range
          ∧ length (history item) = length date_range
          ∧ ascending (date <$> history item).
Proof.
  intros data date_range.
  assert (date_ltb (Data.end_date data) (Data.start_date data) = false) as H1
    by reflexivity.
  assert (Data.order_type data = Some "build") as H2 by reflexivity.
  assert (truthy (Data.export data) = false) as H3 by reflexivity.
  assert (NoDup date_range) as H4
    by (apply (bool_decide_unpack _); vm_compute; exact I).
  pose proof month_calendar_consistent as H5.
  exact (conj H1 (conj H2 (conj H3 (conj H4 (conj H5
    (build_response_is_dense Scenario.month_key Scenario.month_sequence
       Scenario.COMPLETE Scenario.get_descendants Scenario.gettext
       Scenario.tablib_export data Edge.table H1 H2 H3 H4 H5)))))).
Defined.

(** X14. Nothing to aggregate. When no build of the table passes the filters
    of the queryset, a build request with start_date <= end_date still reads
    the table, and answers with the empty response, or, when an export format
    is given, with what the tabular sink makes of a dataset that has the
    header row and no other. *)
Theorem no_qualifying_build_gives_empty_output
    bucket_key bucket_sequence COMPLETE get_descendants gettext tablib_export
    data (db : list Build.t) :
  date_ltb (Data.end_date data) (Data.start_date data) = false →
  Data.order_type data = Some "build" →
  let self :=
    view_of data
      (bucket_sequence (Data.start_date data) (Data.end_date data)
         (default Month (Data.period data))) in
  (∀ b, b ∈ db → ¬ qualifies COMPLETE get_descendants self b) →
  get bucket_key bucket_sequence COMPLETE get_descendants gettext tablib_export
      data db
  = ([QueryBuilds],
     if truthy (Data.export data)
     then
       match tablib_export {| headers := export_headers gettext self; rows := [] |}
               (Data.export data) with
       | Some bytes =>
           Ok (DownloadFile bytes
                 ("order_history." +:+ default "None" (Data.export data)))
       | None => Err UnsupportedExportFormatError
       end
     else Ok (Response [])).
Proof.
  intros Hle Hot self Hnone.
  assert (builds_queryset COMPLETE get_descendants self db = []) as Hnil.
  { apply elem_of_nil_inv. intros b Hb.
    apply builds_queryset_elem_of in Hb as [Hdb Hq]. by eapply Hnone. }
  subst self. unfold view_of in *. rewrite Hot in Hnil.
  unfold get, construct_date_range. rewrite Hle. cbn [order_type]. rewrite Hot.
  unfold generators. cbn [dict_get]. rewrite decide_True by done.
  unfold generate_build_order_history. rewrite Hnil.
  cbn [aggregate_loop result_foldM mbind result_bind period].
  unfold format_response, export_data, export_dataset, export_rows,
    response_items, dict_items. cbn [export_format result_mapM mbind result_bind].
  by destruct (truthy (Data.export data)).
Qed.

Lemma no_qualifying_build_gives_empty_output_scenario :
  let data := Scenario.data (Some "build") (Some "csv") in
  let db := [Scenario.undated; Scenario.build Scenario.P2 6 2023 12 31] in
  date_ltb (Data.end_date data) (Data.start_date data) = false
  ∧ Data.order_type data = Some "build"
  ∧ let self :=
      view_of data
        (Scenario.month_sequence (Data.start_date data) (Data.end_date data)
           (default Month (Data.period data))) in
    (∀ b, b ∈ db →
          ¬ qualifies Scenario.COMPLETE Scenario.get_descendants self b)
    ∧ Scenario.get data db
      = ([QueryBuilds],
         if truthy (Data.export data)
         then
           match Scenario.tablib_export
                   {| headers := export_headers Scenario.gettext self;
                      rows := [] |}
                   (Data.export data) with
           | Some bytes =>
               Ok (DownloadFile bytes
                     ("order_history." +:+ default "None" (Data.export data)))
           | None => Err UnsupportedExportFormatError
           end
         else Ok (Response [])).
Proof.
  intros data db.
  assert (date_ltb (Data.end_date data) (Data.start_date data) = false) as H1
    by reflexivity.
  assert (Data.order_type data = Some "build") as H2 by reflexivity.
  assert (∀ b, b ∈ db →
            ¬ qualifies Scenario.COMPLETE Scenario.get_descendants
                (view_of data
                   (Scenario.month_sequence (Data.start_date data)
                      (Data.end_date data) (default Month (Data.period data))))
                b) as H3.
  { intros b Hb (_ & _ & _ & d & Hd & Hs & He).
    apply elem_of_cons in Hb as [->|Hb]; [done|].
    apply list_elem_of_singleton in Hb as ->.
    injection Hd as <-. vm_compute in Hs. done. }
  exact (conj H1 (conj H2 (conj H3
    (no_qualifying_build_gives_empty_output Scenario.month_key
       Scenario.month_sequence Scenario.COMPLETE Scenario.get_descendants
       Scenario.gettext Scenario.tablib_export data db H1 H2 H3)))).
Defined.

(** X15. Which parts a build request shows. Without an export format, the
    response to a build request with start_date <= end_date has an item for a
    part exactly when some build of the table with that part passes the
    filters of the queryset; with a part filter, every item is for the part
    or one of its descendants. *)
Theorem build_response_parts_qualify
    bucket_key bucket_sequence COMPLETE get_descendants gettext tablib_export
    data (db : list Build.t) :
  date_ltb (Data.end_date data) (Data.start_date data) = false →
  Data.order_type data = Some "build" →
  truthy (Data.export data) = false →
  let self :=
    view_of data
      (bucket_sequence (Data.start_date data) (Data.end_date data)
         (default Month (Data.period data))) in
  ∃ resp,
    get bucket_key bucket_sequence COMPLETE get_descendants gettext
      tablib_export data db
    = ([QueryBuilds], Ok (Response resp))
    ∧ (∀ part_id,
         (∃ item, item ∈ resp ∧ pk (part item) = part_id)
         ↔ ∃ b, b ∈ db ∧ qualifies COMPLETE get_descendants self b
                ∧ pk (Build.part b) = part_id)
    ∧ ∀ p item, Data.part data = Some p → item ∈ resp →
                pk (part item) ∈ get_descendants p.
Proof.
  intros Hle Hot Hexp self.
  destruct (get_build bucket_key bucket_sequence COMPLETE get_descendants gettext
              tablib_export data db Hle Hot)
    as (parts & hist & Hloop & Hkeys & Hget).
  fold self in Hloop, Hget.
  assert (dict_keys hist ⊆ dict_keys parts) as Hcover by (by rewrite Hkeys).
  destruct (response_items_Ok self parts hist Hcover) as [resp Hresp].
  assert ((λ item, pk (part item)) <$> resp
          = first_seen (part_ids (builds_queryset COMPLETE get_descendants self db)))
    as Hids.
  { rewrite <-(aggregate_loop_first_seen _ _ _ _ _ Hloop).
    apply (response_items_part_ids self parts hist resp); [|done].
    by eapply aggregate_loop_parts. }
  assert (∀ part_id,
            (∃ item, item ∈ resp ∧ pk (part item) = part_id)
            ↔ ∃ b, b ∈ db ∧ qualifies COMPLETE get_descendants self b
                   ∧ pk (Build.part b) = part_id) as Hiff.
  { intros part_id.
    assert ((∃ item, item ∈ resp ∧ pk (part item) = part_id)
            ↔ part_id ∈ (λ item, pk (part item)) <$> resp) as ->.
    { rewrite list_elem_of_fmap. split; intros (item & ? & ?); by exists item. }
    rewrite Hids, first_seen_elem_of. unfold part_ids.
    rewrite list_elem_of_fmap. split.
    - intros (b & -> & Hb). apply builds_queryset_elem_of in Hb as [? ?]. eauto.
    - intros (b & Hb & Hq & <-). exists b. split; [done|].
      by apply builds_queryset_elem_of. }
  exists resp. split_and!; [|done|].
  - rewrite Hget. unfold format_response.
    change (export_format self) with (Data.export data).
    by rewrite Hexp, Hresp.
  - intros p item Hp Hitem.
    destruct (proj1 (Hiff (pk (part item)))) as (b & _ & (Hsub & _) & <-); [by eauto|].
    by apply Hsub.
Qed.

Lemma build_response_parts_qualify_scenario :
  let data := Scenario.data (Some "build") None in
  date_ltb (Data.end_date data) (Data.start_date data) = false
  ∧ Data.order_type data = Some "build"
  ∧ truthy (Data.export data) = false
  ∧ let self :=
      view_of data
        (Scenario.month_sequence (Data.start_date data) (Data.end_date data)
           (default Month (Data.period data))) in
    ∃ resp,
      Scenario.get data Edge.table = ([QueryBuilds], Ok (Response resp))
      ∧ (∀ part_id,
           (∃ item, item ∈ resp ∧ pk (part item) = part_id)
           ↔ ∃ b, b ∈ Edge.table
                  ∧ qualifies Scenario.COMPLETE Scenario.get_descendants self b
                  ∧ pk (Build.part b) = part_id)
      ∧ ∀ p item, Data.part data = Some p → item ∈ resp →
                  pk (part item) ∈ Scenario.get_descendants p.
Proof.
  intros data.
  assert (date_ltb (Data.end_date data) (Data.start_date data) = false) as H1
    by reflexivity.
  assert (Data.order_type data = Some "build") as H2 by reflexivity.
  assert (truthy (Data.export data) = false) as H3 by reflexivity.
  exact (conj H1 (conj H2 (conj H3
    (build_response_parts_qualify Scenario.month_key Scenario.month_sequence
       Scenario.COMPLETE Scenario.get_descendants Scenario.gettext
       Scenario.tablib_export data Edge.table H1 H2 H3)))).
Defined.

(** ** The totals of an export row *)

Lemma Zsum_override (f : string → Z) k v (dr : list string) :
  NoDup dr → k ∈ dr →
  Zsum ((λ B, if decide (B = k) then v else f B) <$> dr)
  = v - f k + Zsum (f <$> dr).
Proof.
  induction 1 as [|B dr HB Hnd IH]; intros Hk; [by apply elem_of_nil in Hk|].
  rewrite !fmap_cons, !Zsum_cons.
  apply elem_of_cons in Hk as [->|Hk].
  - rewrite decide_True by done.
    assert ((λ B', if decide (B' = B) then v else f B') <$> dr = f <$> dr) as ->.
    { apply list_fmap_ext. intros _ B' HB'%list_elem_of_lookup_2.
      rewrite decide_False; [done|]. by intros ->. }
    lia.
  - rewrite decide_False by (by intros ->). rewrite IH by done. lia.
Qed.

Lemma Zsum_get_default (e : dict string Z) (dr : list string) :
  dict_wf e → NoDup dr → dict_keys e ⊆ dr →
  Zsum ((λ B, dict_get_default B 0 e) <$> dr) = Zsum (dict_values e).
Proof.
  intros Hwf Hnd. induction e as [|[k v] e IH]; intros Hin.
  - apply (Zsum_zeros dr).
  - unfold dict_wf, dict_keys in Hwf. rewrite fmap_cons in Hwf.
    apply NoDup_cons in Hwf as [Hk Hwf].
    change (k ∉ dict_keys e) in Hk. change (dict_wf e) in Hwf.
    assert ((λ B, dict_get_default B 0 ((k, v) :: e)) <$> dr
            = (λ B, if decide (B = k) then v else dict_get_default B 0 e) <$> dr)
      as ->.
    { apply list_fmap_ext. intros _ B _. unfold dict_get_default. simpl.
      by destruct (decide (B = k)). }
    rewrite Zsum_override; [|done|apply Hin; left].
    rewrite IH; [|done|intros B HB; apply Hin; by right].
    apply dict_get_None in Hk. unfold dict_get_default at 1. rewrite Hk.
    unfold dict_values. rewrite fmap_cons, Zsum_cons. simpl. lia.
Qed.

(** X16. The total of an export row. For a part whose sparse keys all belong
    to a duplicate-free date range, the quantity cells of its export row add
    up to the quantities of its records: the export loses nothing. *)
Theorem export_row_sum_is_record_sum bucket_key gettext self
    (builds : list Build.t) parts hist i part_id entries :
  aggregate_loop bucket_key (period self) builds = Ok (parts, hist) →
  hist !! i = Some (part_id, entries) →
  NoDup (date_range self) →
  dict_keys entries ⊆ date_range self →
  ∃ ds row,
    export_dataset gettext self parts hist = Ok ds
    ∧ rows ds !! i = Some row
    ∧ Zsum (cell_value <$> drop 3 row)
      = Zsum (Build.quantity <$> records_of part_id builds).
Proof.
  intros Hl Hi Hnd Hin.
  destruct (aggregate_loop_lookup _ _ _ _ _ _ _ _ Hl Hi) as [Hget Hwf].
  assert (dict_keys hist ⊆ dict_keys parts) as Hcover
    by (by rewrite (aggregate_loop_keys _ _ _ _ _ Hl)).
  destruct (export_dataset_Ok gettext self parts hist Hcover) as [ds Hds].
  destruct (export_dataset_lookup _ _ _ _ _ _ _ _ Hds Hi) as (_ & part & _ & Hrow).
  exists ds, (export_row self part_id part entries). split_and!; [done..|].
  rewrite <-(aggregate_loop_Zsum _ _ _ _ _ Hl part_id).
  unfold dict_get_default at 1. rewrite Hget.
  rewrite <-(Zsum_get_default entries (date_range self)) by done.
  unfold export_row.
  change (drop 3 (?a ++ ?l)) with l. by rewrite <-!list_fmap_compose.
Qed.

Lemma export_row_sum_is_record_sum_scenario :
  let self := Scenario.self (Some "csv") in
  let entries := [("2024-01", 5); ("2024-02", 3)] in
  Scenario.aggregate_loop (period self) Scenario.builds
  = Ok (Scenario.parts, Scenario.history_items)
  ∧ Scenario.history_items !! 0%nat = Some (1, entries)
  ∧ NoDup (date_range self)
  ∧ dict_keys entries ⊆ date_range self
  ∧ ∃ ds row,
      export_dataset Scenario.gettext self Scenario.parts
        Scenario.history_items = Ok ds
      ∧ rows ds !! 0%nat = Some row
      ∧ Zsum (cell_value <$> drop 3 row)
        = Zsum (Build.quantity <$> records_of 1 Scenario.builds).
Proof.
  intros self entries.
  assert (Scenario.aggregate_loop (period self) Scenario.builds
          = Ok (Scenario.parts, Scenario.history_items)) as H1
    by (vm_compute; reflexivity).
  assert (Scenario.history_items !! 0%nat = Some (1, entries)) as H2
    by reflexivity.
  assert (NoDup (date_range self)) as H3
    by (apply (bool_decide_unpack _); vm_compute; exact I).
  assert (dict_keys entries ⊆ date_range self) as H4
    by (apply (bool_decide_unpack _); vm_compute; exact I).
  exact (conj H1 (conj H2 (conj H3 (conj H4
    (export_row_sum_is_record_sum Scenario.month_key Scenario.gettext self
       Scenario.builds Scenario.parts Scenario.history_items 0%nat 1 entries
       H1 H2 H3 H4))))).
Defined.
